(** * Font registry engine of [font_manager.py]

    A shallow embedding of the [FontManager] class: the enumerator
    [get_installed_fonts], the installer [install_font] and the uninstaller
    [uninstall_font], over an explicit model of the operating system they
    talk to (file system, the two registry hives, the font-change
    broadcast), and of the data side of the [FontManagerGUI] window that
    drives it (the tab and search filters, the preview name, the batch
    install and uninstall), followed by the properties of the specification
    and further properties of the code.

    Conventions of the model:
    - a Python [str] is a Rocq [string] (a byte string, UTF-8 for the
      Chinese literals);
    - [str.lower] and [str.strip] follow the Unicode character database,
      which is not reproduced: the development is parametric in the two
      functions (class [Str.Unicode]), and every property holds whatever
      they do outside ASCII;
    - the file system and the registry compare paths and value names by
      exact string equality; the file system holds files only, and the
      values of the Fonts keys are strings;
    - [os.path] is [ntpath] of CPython 3.11. *)

From Stdlib Require Import Ascii String ZArith DecimalString.
From stdpp Require Import base decidable option list sorting gmap strings.

Open Scope string_scope.

(** ** Python string primitives *)

Module Str.

Definition backslash : ascii := Ascii.ascii_of_nat 92.
Definition slash : ascii := Ascii.ascii_of_nat 47.
Definition colon : ascii := Ascii.ascii_of_nat 58.
Definition dot : ascii := Ascii.ascii_of_nat 46.

Definition ascii_eqb (a b : ascii) : bool := Ascii.eqb a b.

(** [s[:n]] *)
Fixpoint take (n : nat) (s : string) : string :=
  match n, s with
  | S m, String c r => String c (take m r)
  | _, _ => EmptyString
  end.

(** [s[n:]] *)
Fixpoint drop (n : nat) (s : string) : string :=
  match n, s with
  | S m, String _ r => drop m r
  | _, _ => s
  end.

(** [s[i:j]] *)
Definition slice (i j : nat) (s : string) : string := take (j - i) (drop i s).

Fixpoint map (f : ascii -> ascii) (s : string) : string :=
  match s with
  | EmptyString => EmptyString
  | String c r => String (f c) (map f r)
  end.

(** [s.replace(a, b)] for single characters. *)
Definition replace (a b : ascii) (s : string) : string :=
  map (fun c => if ascii_eqb c a then b else c) s.

Definition lower_ascii (c : ascii) : ascii :=
  let n := Ascii.nat_of_ascii c in
  if (65 <=? n)%nat && (n <=? 90)%nat then Ascii.ascii_of_nat (n + 32) else c.

Definition upper_ascii (c : ascii) : ascii :=
  let n := Ascii.nat_of_ascii c in
  if (97 <=? n)%nat && (n <=? 122)%nat then Ascii.ascii_of_nat (n - 32) else c.

(** Lowercasing and uppercasing of the ASCII letters. [upper] occurs only
    in [ntpath.splitdrive], compared with a literal made of separators, [?]
    and the letters U, N, C, which no character outside ASCII uppercases
    to. *)
Definition ascii_lower (s : string) : string := map lower_ascii s.
Definition upper (s : string) : string := map upper_ascii s.

Definition is_ascii_char (c : ascii) : bool := (Ascii.nat_of_ascii c <? 128)%nat.

Fixpoint is_ascii (s : string) : bool :=
  match s with
  | EmptyString => true
  | String c r => is_ascii_char c && is_ascii r
  end.

(** [s.startswith(p)] *)
Fixpoint startswith (s p : string) : bool :=
  match p, s with
  | EmptyString, _ => true
  | String a p', String b s' => ascii_eqb a b && startswith s' p'
  | String _ _, EmptyString => false
  end.

(** [s.find(c, start)], with [None] for -1. *)
Fixpoint find_in (c : ascii) (s : string) (pos : nat) : option nat :=
  match s with
  | EmptyString => None
  | String d r => if ascii_eqb d c then Some pos else find_in c r (S pos)
  end.

Definition find (c : ascii) (s : string) (start : nat) : option nat :=
  find_in c (drop start s) start.

(** [s.rfind(c)], an integer, -1 when [c] does not occur. *)
Fixpoint rfind_in (c : ascii) (s : string) (pos : Z) (last : Z) : Z :=
  match s with
  | EmptyString => last
  | String d r => rfind_in c r (pos + 1) (if ascii_eqb d c then pos else last)
  end.

Definition rfind (c : ascii) (s : string) : Z := rfind_in c s 0 (-1).

(** [s[-1]] *)
Fixpoint last (s : string) : option ascii :=
  match s with
  | EmptyString => None
  | String c EmptyString => Some c
  | String _ r => last r
  end.

Definition head (s : string) : option ascii :=
  match s with
  | EmptyString => None
  | String c _ => Some c
  end.

Definition is_empty (s : string) : bool :=
  match s with EmptyString => true | _ => false end.

Definition eqb (a b : string) : bool := bool_decide (a = b).

(** [sub in s] *)
Fixpoint contains (s sub : string) : bool :=
  startswith s sub
  || match s with
     | EmptyString => false
     | String _ r => contains r sub
     end.

(** [s.find(sub)], with [None] for -1. *)
Fixpoint find_sub (s sub : string) : option nat :=
  if startswith s sub then Some 0
  else match s with
       | EmptyString => None
       | String _ r => option_map S (find_sub r sub)
       end.

(** [s.split(sub)[0]] for a non-empty [sub]: what precedes the first
    occurrence of [sub], or all of [s] when there is none. *)
Definition split_head (s sub : string) : string :=
  match find_sub s sub with
  | Some i => take i s
  | None => s
  end.

(** The ASCII characters that are white space. *)
Definition is_space (c : ascii) : bool :=
  let n := Ascii.nat_of_ascii c in
  ((9 <=? n)%nat && (n <=? 13)%nat) || ((28 <=? n)%nat && (n <=? 32)%nat).

Fixpoint lstrip (s : string) : string :=
  match s with
  | EmptyString => EmptyString
  | String c r => if is_space c then lstrip r else s
  end.

Fixpoint rstrip (s : string) : string :=
  match s with
  | EmptyString => EmptyString
  | String c r =>
      let r' := rstrip r in
      if is_empty r' && is_space c then EmptyString else String c r'
  end.

Definition ascii_strip (s : string) : string := rstrip (lstrip s).

(** [s.lower()] and [s.strip()]. Python takes the cased letters and the
    white space from the Unicode character database; the two functions are
    parameters here, known only on ASCII strings, where [lower] maps A-Z to
    a-z and [strip] removes the ASCII white space at both ends. *)
Class Unicode := {
  lower : string -> string;
  strip : string -> string;
  lower_ascii_string : forall s, is_ascii s = true -> lower s = ascii_lower s;
  strip_ascii_string : forall s, is_ascii s = true -> strip s = ascii_strip s
}.

(** The two functions restricted to ASCII: they leave every other
    character alone. Used to evaluate the definitions on ASCII inputs. *)
Definition ascii_only : Unicode :=
  {| lower := ascii_lower;
     strip := ascii_strip;
     lower_ascii_string := fun s _ => eq_refl;
     strip_ascii_string := fun s _ => eq_refl |}.

(** A lowercasing that also knows the capital letters of the Latin-1
    supplement, À to Þ without the sign ×: in UTF-8 the byte 195 followed
    by a byte from 128 to 158 other than 151; the small letter is 32
    further. Used to evaluate the definitions on names with umlauts. *)
Definition is_latin1_capital (c d : ascii) : bool :=
  let n := Ascii.nat_of_ascii d in
  (Ascii.nat_of_ascii c =? 195)%nat && (128 <=? n)%nat && (n <=? 158)%nat
  && negb (n =? 151)%nat.

Fixpoint latin1_lower (s : string) : string :=
  match s with
  | EmptyString => EmptyString
  | String c t =>
      match t with
      | EmptyString => String (lower_ascii c) EmptyString
      | String d r =>
          if is_latin1_capital c d
          then String c (String (Ascii.ascii_of_nat (Ascii.nat_of_ascii d + 32)) (latin1_lower r))
          else String (lower_ascii c) (latin1_lower t)
      end
  end.

Definition latin1 : Unicode.
Proof.
  refine {| lower := latin1_lower; strip := ascii_strip;
            strip_ascii_string := fun s _ => eq_refl |}.
  induction s as [|c t IH]; [reflexivity|].
  intros Hs. cbn [is_ascii] in Hs. apply andb_prop in Hs. destruct Hs as [Hc Ht].
  specialize (IH Ht). cbn [latin1_lower]. destruct t as [|d r]; [reflexivity|].
  replace (is_latin1_capital c d) with false.
  - rewrite IH. reflexivity.
  - unfold is_latin1_capital, is_ascii_char in *.
    destruct (Nat.eqb_spec (Ascii.nat_of_ascii c) 195) as [Heq|]; [|reflexivity].
    rewrite Heq in Hc. discriminate Hc.
Defined.

(** [sep.join(l)] *)
Fixpoint join (sep : string) (l : list string) : string :=
  match l with
  | [] => EmptyString
  | [x] => x
  | x :: r => x ++ sep ++ join sep r
  end.

(** The line feed, and [str(n)] for a natural number. *)
Definition nl : string := String (Ascii.ascii_of_nat 10) EmptyString.
Definition of_nat (n : nat) : string := NilZero.string_of_uint (Nat.to_uint n).

End Str.

(** ** [os.path] on Windows: [ntpath] *)

Module ntpath.

Import Str.

Definition sep : string := String backslash EmptyString.

(** [c in '\\/'] *)
Definition is_sep (c : ascii) : bool :=
  ascii_eqb c backslash || ascii_eqb c slash.

Definition head_is_sep (s : string) : bool :=
  match head s with Some c => is_sep c | None => false end.

Definition unc_prefix : string :=
  String backslash (String backslash ("?" ++ sep ++ "UNC" ++ sep)).

(** [splitdrive(p)]: drive letter or UNC share, and the rest. *)
Definition splitdrive (p : string) : string * string :=
  if (2 <=? String.length p)%nat then
    let normp := replace slash backslash p in
    if eqb (slice 0 2 normp) (sep ++ sep) then
      let start := if eqb (upper (take 8 normp)) unc_prefix then 8%nat else 2%nat in
      match find backslash normp start with
      | None => (p, take 0 p)
      | Some index =>
          match find backslash normp (index + 1) with
          | None => (p, take 0 p)
          | Some index2 => (take index2 p, drop index2 p)
          end
      end
    else if eqb (slice 1 2 normp) (String colon EmptyString) then
      (take 2 p, drop 2 p)
    else (take 0 p, p)
  else (take 0 p, p).

(** [isabs(s)] *)
Definition isabs (s : string) : bool :=
  let s := replace slash backslash (take 3 s) in
  startswith s sep || startswith (drop 1 s) (String colon sep).

Section Join.

Context `{unicode : !Unicode}.

(** One iteration of the loop of [join] over the remaining arguments. *)
Definition join_step (acc : string * string) (p : string) : string * string :=
  let '(result_drive, result_path) := acc in
  let '(p_drive, p_path) := splitdrive p in
  if head_is_sep p_path then
    ((if negb (is_empty p_drive) || is_empty result_drive
      then p_drive else result_drive), p_path)
  else
    let different := negb (is_empty p_drive) && negb (eqb p_drive result_drive) in
    if different && negb (eqb (lower p_drive) (lower result_drive)) then
      (p_drive, p_path)
    else
      let result_drive := if different then p_drive else result_drive in
      let result_path :=
        match last result_path with
        | Some c => if is_sep c then result_path else result_path ++ sep
        | None => result_path
        end in
      (result_drive, result_path ++ p_path).

(** [join(path, *paths)] *)
Definition join (path : string) (paths : list string) : string :=
  let '(result_drive, result_path) := foldl join_step (splitdrive path) paths in
  if negb (is_empty result_path) && negb (head_is_sep result_path)
     && negb (is_empty result_drive)
     && negb (eqb (drop (String.length result_drive - 1) result_drive)
                  (String colon EmptyString))
  then result_drive ++ sep ++ result_path
  else result_drive ++ result_path.

End Join.

(** The tail of [split(p)]: what follows the last separator. *)
Fixpoint has_sep (s : string) : bool :=
  match s with
  | EmptyString => false
  | String c r => is_sep c || has_sep r
  end.

Fixpoint after_last_sep (s : string) : string :=
  match s with
  | EmptyString => EmptyString
  | String c r =>
      if has_sep r then after_last_sep r
      else if is_sep c then r else s
  end.

(** [basename(p)] is [split(p)[1]]. *)
Definition basename (p : string) : string := after_last_sep (snd (splitdrive p)).

(** The loop of [genericpath._splitext] that skips leading dots: [n] is
    [dotIndex - filenameIndex]. *)
Fixpoint skip_leading_dots (p : string) (filenameIndex n : nat) : bool :=
  match n with
  | O => false
  | S m =>
      if negb (eqb (slice filenameIndex (filenameIndex + 1) p) (String dot EmptyString))
      then true
      else skip_leading_dots p (filenameIndex + 1) m
  end.

(** [splitext(p)] *)
Definition splitext (p : string) : string * string :=
  let sepIndex := Z.max (rfind backslash p) (rfind slash p) in
  let dotIndex := rfind dot p in
  if (sepIndex <? dotIndex)%Z
     && skip_leading_dots p (Z.to_nat (sepIndex + 1)) (Z.to_nat (dotIndex - (sepIndex + 1)))
  then (take (Z.to_nat dotIndex) p, drop (Z.to_nat dotIndex) p)
  else (p, take 0 p).

End ntpath.

(** ** Exceptions and the state-and-exception monad *)

(** The exception classes the source distinguishes. [PermissionError] and
    [FileNotFoundError] are subclasses of [OSError], of which [WindowsError]
    is an alias; [Exception] stands for every other exception. *)
Inductive exn_class := PermissionError | FileNotFoundError | OSError | Exception.

Record exn := mk_exn { class_of : exn_class; str : string }.

(** [isinstance(e, WindowsError)] *)
Definition is_WindowsError (e : exn) : bool :=
  match class_of e with
  | PermissionError | FileNotFoundError | OSError => true
  | Exception => false
  end.

(** Outcome of running a piece of code: a value, a raised exception, or a
    loop that used up its iteration budget. *)
Inductive Res (A : Type) :=
| Ok (a : A)
| Raise (e : exn)
| Diverge.
Arguments Ok {A} a.
Arguments Raise {A} e.
Arguments Diverge {A}.

Definition M (S A : Type) : Type := S -> Res A * S.

Definition ret {S A} (a : A) : M S A := fun s => (Ok a, s).

Definition bind {S A B} (m : M S A) (k : A -> M S B) : M S B :=
  fun s =>
    match m s with
    | (Ok a, s') => k a s'
    | (Raise e, s') => (Raise e, s')
    | (Diverge, s') => (Diverge, s')
    end.

Definition raise {S A} (e : exn) : M S A := fun s => (Raise e, s).
Definition diverge {S A} : M S A := fun s => (Diverge, s).
Definition get {S} : M S S := fun s => (Ok s, s).
Definition put {S} (s : S) : M S unit := fun _ => (Ok tt, s).

(** [try: m  except ... as e: handler e]; a handler re-raises what its
    [except] clauses do not match. State changes made before the exception
    are kept. *)
Definition try_except {S A} (m : M S A) (handler : exn -> M S A) : M S A :=
  fun s =>
    match m s with
    | (Raise e, s') => handler e s'
    | r => r
    end.

(** A computation that only produces a result, leaving the state alone. *)
Definition liftR {S A} (r : Res A) : M S A := fun s => (r, s).

(** [print(...)]: diagnostics only, taken to succeed. *)
Definition print {S} (msg : string) : M S unit := ret tt.

Declare Scope py_scope.
Delimit Scope py_scope with py.
Notation "'let*' x ':=' m 'in' k" := (bind m (fun x => k))
  (at level 10, x name, m at level 100, k at level 200) : py_scope.
Notation "m ';;' k" := (bind m (fun _ => k))
  (at level 100, k at level 200, right associativity) : py_scope.
Open Scope py_scope.

(** ** The operating system *)

Inductive hkey := HKEY_LOCAL_MACHINE | HKEY_CURRENT_USER.
Inductive access := KEY_READ | KEY_SET_VALUE.

#[global] Instance hkey_eq_dec : EqDecision hkey.
Proof. solve_decision. Defined.

#[global] Instance hkey_countable : Countable hkey.
Proof.
  refine (inj_countable'
            (fun h => match h with HKEY_LOCAL_MACHINE => true | HKEY_CURRENT_USER => false end)
            (fun b : bool => if b then HKEY_LOCAL_MACHINE else HKEY_CURRENT_USER) _).
  by intros [].
Defined.

(** An open registry key: the root hive and the sub key path. *)
Abbreviation HKEY := (hkey * string)%type.

(** The system calls the engine makes; the environment may fail any of them. *)
Inductive syscall :=
| SysOpenKey (root : hkey) (sub_key : string) (sam : access)
| SysEnumValue (key : HKEY) (index : nat)
| SysSetValueEx (key : HKEY) (value_name : string)
| SysDeleteValue (key : HKEY) (value_name : string)
| SysCopy2 (src dst : string)
| SysRemove (p : string)
| SysSendMessageTimeout.

(** The state of the machine:
    - [fs]: the files, path to content;
    - [registry]: for each existing key, its values in enumeration order,
      value name to string data;
    - [notify_calls]: how many font-change broadcasts were attempted;
    - [faults]: the errors the environment injects (access denied, locked
      file, ...), per system call. *)
Record World := mk_World {
  fs : gmap string string;
  registry : gmap HKEY (list (string * string));
  notify_calls : nat;
  faults : syscall -> option exn
}.

Definition set_fs (f : gmap string string) (w : World) : World :=
  mk_World f (registry w) (notify_calls w) (faults w).
Definition set_registry (r : gmap HKEY (list (string * string))) (w : World) : World :=
  mk_World (fs w) r (notify_calls w) (faults w).
Definition set_notify_calls (n : nat) (w : World) : World :=
  mk_World (fs w) (registry w) n (faults w).

Module os.

(** [os.path.exists(p)] *)
Definition path_exists (w : World) (p : string) : bool :=
  bool_decide (is_Some (fs w !! p)).

(** [os.remove(p)] *)
Definition remove (p : string) : M World unit :=
  fun w =>
    match faults w (SysRemove p) with
    | Some e => (Raise e, w)
    | None =>
        match fs w !! p with
        | Some _ => (Ok tt, set_fs (delete p (fs w)) w)
        | None => (Raise (mk_exn FileNotFoundError "[WinError 2] file not found"), w)
        end
    end.

End os.

Module shutil.

(** [shutil.copy2(src, dst)] *)
Definition copy2 (src dst : string) : M World unit :=
  fun w =>
    match faults w (SysCopy2 src dst) with
    | Some e => (Raise e, w)
    | None =>
        match fs w !! src with
        | Some data => (Ok tt, set_fs (<[dst := data]> (fs w)) w)
        | None => (Raise (mk_exn FileNotFoundError "[Errno 2] No such file or directory"), w)
        end
    end.

End shutil.

Module winreg.

Definition values (w : World) (key : HKEY) : list (string * string) :=
  default [] (registry w !! key).

(** [OpenKey(root, sub_key, 0, sam)] *)
Definition OpenKey (w : World) (root : hkey) (sub_key : string) (sam : access) : Res HKEY :=
  match faults w (SysOpenKey root sub_key sam) with
  | Some e => Raise e
  | None =>
      match registry w !! (root, sub_key) with
      | Some _ => Ok (root, sub_key)
      | None => Raise (mk_exn FileNotFoundError "[WinError 2] key not found")
      end
  end.

(** [EnumValue(key, index)], without the type of the value. *)
Definition EnumValue (w : World) (key : HKEY) (index : nat) : Res (string * string) :=
  match faults w (SysEnumValue key index) with
  | Some e => Raise e
  | None =>
      match values w key !! index with
      | Some nv => Ok nv
      | None => Raise (mk_exn OSError "[WinError 259] No more data is available")
      end
  end.

(** Writing a value replaces the data of a value of that name, or adds
    the value at the end. *)
Fixpoint set_value (value_name data : string) (vs : list (string * string))
  : list (string * string) :=
  match vs with
  | [] => [(value_name, data)]
  | (n, d) :: rest =>
      if bool_decide (n = value_name) then (n, data) :: rest
      else (n, d) :: set_value value_name data rest
  end.

Definition has_value (value_name : string) (vs : list (string * string)) : bool :=
  bool_decide (value_name ∈ vs.*1).

Definition delete_value (value_name : string) (vs : list (string * string))
  : list (string * string) :=
  filter (fun nv => nv.1 ≠ value_name) vs.

(** [SetValueEx(key, value_name, 0, REG_SZ, data)] *)
Definition SetValueEx (key : HKEY) (value_name data : string) : M World unit :=
  fun w =>
    match faults w (SysSetValueEx key value_name) with
    | Some e => (Raise e, w)
    | None =>
        (Ok tt, set_registry (<[key := set_value value_name data (values w key)]> (registry w)) w)
    end.

(** [DeleteValue(key, value_name)] *)
Definition DeleteValue (key : HKEY) (value_name : string) : M World unit :=
  fun w =>
    match faults w (SysDeleteValue key value_name) with
    | Some e => (Raise e, w)
    | None =>
        if has_value value_name (values w key)
        then (Ok tt, set_registry (<[key := delete_value value_name (values w key)]> (registry w)) w)
        else (Raise (mk_exn FileNotFoundError "[WinError 2] value not found"), w)
    end.

End winreg.

(** [ctypes.windll.user32.SendMessageTimeoutW(HWND_BROADCAST, WM_FONTCHANGE, ...)] *)
Definition SendMessageTimeoutW : M World unit :=
  fun w =>
    let w' := set_notify_calls (S (notify_calls w)) w in
    match faults w (SysSendMessageTimeout) with
    | Some e => (Raise e, w')
    | None => (Ok tt, w')
    end.

(** ** The class [FontManager] *)

(** [sorted(l, key=...)] on string keys: a stable insertion sort. *)
Fixpoint insert_by {A} (key : A -> string) (x : A) (l : list A) : list A :=
  match l with
  | [] => [x]
  | y :: r => if String.leb (key x) (key y) then x :: y :: r else y :: insert_by key x r
  end.

Definition sorted {A} (key : A -> string) (l : list A) : list A :=
  foldr (insert_by key) [] l.

Definition SYSTEM_FONTS_REG_PATH : string := "SOFTWARE\Microsoft\Windows NT\CurrentVersion\Fonts".
Definition USER_FONTS_REG_PATH : string := "SOFTWARE\Microsoft\Windows NT\CurrentVersion\Fonts".

(** The instance attributes set by [__init__]. *)
Record FontManager := mk_FontManager {
  system_fonts_dir : string;
  user_fonts_dir : string
}.

(** [__init__], from the environment variables it reads. *)
Definition init `{!Str.Unicode} (WINDIR LOCALAPPDATA : string) : FontManager :=
  {| system_fonts_dir := ntpath.join WINDIR ["Fonts"];
     user_fonts_dir := ntpath.join LOCALAPPDATA ["Microsoft"; "Windows"; "Fonts"] |}.

(** An entry of the catalog: the dict with keys name, file, path, type. *)
Record FontRecord := mk_FontRecord {
  name : string;
  file : string;
  path : string;
  type : string
}.

#[global] Instance FontRecord_eq_dec : EqDecision FontRecord.
Proof. solve_decision. Defined.

Definition SYSTEM_FONT : string := "系统字体".
Definition USER_FONT : string := "用户字体".

(** The local variables of [get_installed_fonts]. *)
Record Locals := mk_Locals {
  fonts : list FontRecord;
  added_fonts : gset (string * string)
}.

Inductive loop_ctl := Continue | Break.

Section Program.

Context `{unicode : !Str.Unicode}.

Section Enumerator.

Variable self : FontManager.
Variable w : World.

(** [get_installed_fonts], lines 36-106. The two blocks that read the
    hives differ only in the root key and the font directory; they are one
    definition here, [read_hive].

    The body of the [try] inside the [while True] loop (lines 50-68 and
    81-100), for the hive whose font directory is [fonts_dir]. *)
Definition enum_body (fonts_dir : string) (key : HKEY) (i : nat) : M Locals unit :=
  let* nv := liftR (winreg.EnumValue w key i) in
  let '(name, value) := nv in
  let font_path :=
    if negb (ntpath.isabs value) then ntpath.join fonts_dir [value] else value in
  if os.path_exists w font_path then
    let is_system :=
      Str.startswith (Str.lower font_path) (Str.lower (system_fonts_dir self)) in
    let font_key := (name, Str.lower font_path) in
    let* l := get in
    if bool_decide (font_key ∉ added_fonts l) then
      let record :=
        {| name := name; file := value; path := font_path;
           type := if is_system then SYSTEM_FONT else USER_FONT |} in
      put (mk_Locals (fonts l ++ [record]) (added_fonts l)) ;;
      let* l := get in
      put (mk_Locals (fonts l) ({[font_key]} ∪ added_fonts l))
    else ret tt
  else ret tt.

(** [while True: try: ...; i += 1  except WindowsError: break] *)
Fixpoint enum_loop (fuel : nat) (fonts_dir : string) (key : HKEY) (i : nat)
  : M Locals unit :=
  match fuel with
  | O => diverge
  | S fuel' =>
      let* c :=
        try_except (enum_body fonts_dir key i ;; ret Continue)
          (fun e => if is_WindowsError e then ret Break else raise e) in
      match c with
      | Break => ret tt
      | Continue => enum_loop fuel' fonts_dir key (i + 1)
      end
  end.

(** One of the two [try: with winreg.OpenKey(...) as key: ...
    except Exception as e: print(...)] blocks. The loop stops at the
    latest at the index that equals the number of values of the key,
    where [EnumValue] raises: that many iterations plus one are allowed. *)
Definition read_hive (root : hkey) (sub_key fonts_dir label : string) : M Locals unit :=
  try_except
    (let* key := liftR (winreg.OpenKey w root sub_key KEY_READ) in
     enum_loop (S (length (winreg.values w key))) fonts_dir key 0)
    (fun e => print (label ++ str e)).

Definition get_installed_fonts_body : M Locals (list FontRecord) :=
  read_hive HKEY_LOCAL_MACHINE SYSTEM_FONTS_REG_PATH (system_fonts_dir self)
    "读取系统字体注册表错误: " ;;
  read_hive HKEY_CURRENT_USER USER_FONTS_REG_PATH (user_fonts_dir self)
    "读取用户字体注册表错误: " ;;
  let* l := get in
  ret (sorted name (fonts l)).

Definition get_installed_fonts : Res (list FontRecord) :=
  fst (get_installed_fonts_body (mk_Locals [] ∅)).

End Enumerator.

Section Mutators.

Variable self : FontManager.

Definition exists_ (p : string) : M World bool := fun w => (Ok (os.path_exists w p), w).
Definition OpenKey (root : hkey) (sub_key : string) (sam : access) : M World HKEY :=
  fun w => (winreg.OpenKey w root sub_key sam, w).

(** [_notify_font_change], lines 214-227. *)
Definition _notify_font_change : M World unit :=
  try_except SendMessageTimeoutW (fun e => print ("通知系统失败: " ++ str e)).

(** [install_font(font_path, install_type)], lines 108-170. *)
Definition install_font (font_path install_type : string) : M World (bool * string) :=
  let* found := exists_ font_path in
  if negb found then ret (false, "字体文件不存在") else
  let ext := Str.lower (ntpath.splitext font_path).2 in
  if negb (bool_decide (ext ∈ [".ttf"; ".otf"; ".ttc"])) then
    ret (false, "不支持的字体格式，仅支持 .ttf, .otf, .ttc")
  else
  let font_filename := ntpath.basename font_path in
  let '(target_dir, reg_hkey, reg_path, type_name) :=
    if Str.eqb install_type "system"
    then (system_fonts_dir self, HKEY_LOCAL_MACHINE, SYSTEM_FONTS_REG_PATH, "系统字体")
    else (user_fonts_dir self, HKEY_CURRENT_USER, USER_FONTS_REG_PATH, "用户字体") in
  let target_path := ntpath.join target_dir [font_filename] in
  let* present := exists_ target_path in
  if present then ret (false, "字体已存在于" ++ type_name ++ "中") else
  try_except
    (shutil.copy2 font_path target_path ;;
     let font_name := (ntpath.splitext font_filename).1 in
     let reg_name :=
       if Str.eqb ext ".ttf" then font_name ++ " (TrueType)"
       else if Str.eqb ext ".otf" then font_name ++ " (OpenType)"
       else font_name in
     let* key := OpenKey reg_hkey reg_path KEY_SET_VALUE in
     winreg.SetValueEx key reg_name font_filename ;;
     _notify_font_change ;;
     ret (true, "字体已成功安装为" ++ type_name))
    (fun e =>
       match class_of e with
       | PermissionError =>
           if Str.eqb install_type "system"
           then ret (false, "安装系统字体需要管理员权限，请以管理员身份运行程序")
           else ret (false, "权限不足")
       | _ => ret (false, "安装失败: " ++ str e)
       end).

(** [uninstall_font(font_name, font_file, font_type)], lines 172-212. *)
Definition uninstall_font (font_name font_file font_type : string)
  : M World (bool * string) :=
  try_except
    (let '(reg_hkey, reg_path, font_dir) :=
       if Str.eqb font_type "系统字体"
       then (HKEY_LOCAL_MACHINE, SYSTEM_FONTS_REG_PATH, system_fonts_dir self)
       else (HKEY_CURRENT_USER, USER_FONTS_REG_PATH, user_fonts_dir self) in
     let* key := OpenKey reg_hkey reg_path KEY_SET_VALUE in
     winreg.DeleteValue key font_name ;;
     let font_path := ntpath.join font_dir [font_file] in
     let* present := exists_ font_path in
     (if present then os.remove font_path else ret tt) ;;
     _notify_font_change ;;
     ret (true, font_type ++ "卸载成功"))
    (fun e =>
       match class_of e with
       | PermissionError =>
           if Str.eqb font_type "系统字体"
           then ret (false, "卸载系统字体需要管理员权限，请以管理员身份运行程序")
           else ret (false, "权限不足")
       | FileNotFoundError => ret (false, "注册表项不存在")
       | _ => ret (false, "卸载失败: " ++ str e)
       end).

End Mutators.

(** ** What the enumerator computes *)

(** The path resolver and the scope classification, as the loop body
    writes them inline. *)
Definition resolve (fonts_dir value : string) : string :=
  if negb (ntpath.isabs value) then ntpath.join fonts_dir [value] else value.

Definition is_system (self : FontManager) (font_path : string) : bool :=
  Str.startswith (Str.lower font_path) (Str.lower (system_fonts_dir self)).

Definition classify (self : FontManager) (font_path : string) : string :=
  if is_system self font_path then SYSTEM_FONT else USER_FONT.

Definition record_of (self : FontManager) (fonts_dir : string) (nv : string * string)
  : FontRecord :=
  {| name := nv.1; file := nv.2; path := resolve fonts_dir nv.2;
     type := classify self (resolve fonts_dir nv.2) |}.

(** The deduplication key of a record. *)
Definition key_of (r : FontRecord) : string * string := (name r, Str.lower (path r)).

(** The effect of one successful iteration on the local variables. *)
Definition visit (self : FontManager) (w : World) (fonts_dir : string)
  (l : Locals) (nv : string * string) : Locals :=
  let r := record_of self fonts_dir nv in
  if os.path_exists w (path r) && bool_decide (key_of r ∉ added_fonts l)
  then mk_Locals (fonts l ++ [r]) ({[key_of r]} ∪ added_fonts l)
  else l.

Definition scan (self : FontManager) (w : World) (fonts_dir : string)
  (es : list (string * string)) (l : Locals) : Locals :=
  foldl (visit self w fonts_dir) l es.

(** The values a loop gets to see: those before the first index at which
    the environment fails [EnumValue]. *)
Fixpoint enum_prefix (w : World) (key : HKEY) (vs : list (string * string)) (i : nat)
  : list (string * string) :=
  match vs with
  | [] => []
  | nv :: rest =>
      match faults w (SysEnumValue key i) with
      | Some _ => []
      | None => nv :: enum_prefix w key rest (S i)
      end
  end.

Definition hive_entries (w : World) (root : hkey) (sub_key : string)
  : list (string * string) :=
  match winreg.OpenKey w root sub_key KEY_READ with
  | Ok key => enum_prefix w key (winreg.values w key) 0
  | _ => []
  end.

(** The set [added_fonts] holds exactly the keys of the records collected
    so far, and no key occurs twice among them. *)
Definition dedup_inv (l : Locals) : Prop :=
  NoDup (key_of <$> fonts l) /\
  forall k, k ∈ added_fonts l <-> k ∈ key_of <$> fonts l.

(** ** The locals of the installer and the uninstaller *)

(** The locals of [install_font], as functions of its arguments. *)
Definition install_ext (font_path : string) : string :=
  Str.lower (ntpath.splitext font_path).2.

Definition install_dir (self : FontManager) (install_type : string) : string :=
  if Str.eqb install_type "system" then system_fonts_dir self else user_fonts_dir self.

Definition install_key (install_type : string) : HKEY :=
  if Str.eqb install_type "system"
  then (HKEY_LOCAL_MACHINE, SYSTEM_FONTS_REG_PATH)
  else (HKEY_CURRENT_USER, USER_FONTS_REG_PATH).

Definition install_type_name (install_type : string) : string :=
  if Str.eqb install_type "system" then "系统字体" else "用户字体".

Definition install_target (self : FontManager) (font_path install_type : string) : string :=
  ntpath.join (install_dir self install_type) [ntpath.basename font_path].

(** The locals of [uninstall_font]. *)
Definition uninstall_key (font_type : string) : HKEY :=
  if Str.eqb font_type "系统字体"
  then (HKEY_LOCAL_MACHINE, SYSTEM_FONTS_REG_PATH)
  else (HKEY_CURRENT_USER, USER_FONTS_REG_PATH).

Definition uninstall_dir (self : FontManager) (font_type : string) : string :=
  if Str.eqb font_type "系统字体" then system_fonts_dir self else user_fonts_dir self.

Definition uninstall_target (self : FontManager) (font_file font_type : string) : string :=
  ntpath.join (uninstall_dir self font_type) [font_file].

(** The [except] clauses of [uninstall_font]: the pair returned for a
    raised exception. *)
Definition uninstall_failure (font_type : string) (e : exn) : bool * string :=
  match class_of e with
  | PermissionError =>
      if Str.eqb font_type "系统字体"
      then (false, "卸载系统字体需要管理员权限，请以管理员身份运行程序")
      else (false, "权限不足")
  | FileNotFoundError => (false, "注册表项不存在")
  | _ => (false, "卸载失败: " ++ str e)
  end.

(** The three validation failures of the installer. *)
Definition MSG_FILE_NOT_FOUND : string := "字体文件不存在".
Definition MSG_UNSUPPORTED_FORMAT : string := "不支持的字体格式，仅支持 .ttf, .otf, .ttc".
Definition MSG_ALREADY_INSTALLED (install_type : string) : string :=
  "字体已存在于" ++ install_type_name install_type ++ "中".

(** ** Notions used to state the properties *)

(** The value at index [i] of a hive is delivered to the enumerator: the
    key opens for reading and [EnumValue] succeeds at every index up to
    [i]. *)
Definition enumerated (w : World) (root : hkey) (sub_key : string) (i : nat)
  (nv : string * string) : Prop :=
  exists key,
    winreg.OpenKey w root sub_key KEY_READ = Ok key /\
    (forall j, j < i -> exists x, winreg.EnumValue w key j = Ok x) /\
    winreg.EnumValue w key i = Ok nv.

(** The local variables when both hives have been read. *)
Definition final_locals (self : FontManager) (w : World) : Locals :=
  scan self w (user_fonts_dir self)
    (hive_entries w HKEY_CURRENT_USER USER_FONTS_REG_PATH)
    (scan self w (system_fonts_dir self)
       (hive_entries w HKEY_LOCAL_MACHINE SYSTEM_FONTS_REG_PATH)
       (mk_Locals [] ∅)).

Definition machine_key : HKEY := (HKEY_LOCAL_MACHINE, SYSTEM_FONTS_REG_PATH).
Definition user_key : HKEY := (HKEY_CURRENT_USER, USER_FONTS_REG_PATH).

(** The environment lets the user hive be read, the value be deleted and
    the file be removed. *)
Definition round_trip_unhindered (w : World) (reg_name target : string) : Prop :=
  faults w (SysOpenKey HKEY_CURRENT_USER USER_FONTS_REG_PATH KEY_READ) = None /\
  (forall i, faults w (SysEnumValue user_key i) = None) /\
  faults w (SysDeleteValue user_key reg_name) = None /\
  faults w (SysRemove target) = None.

(** No value of the machine hive has this name and resolves to this file. *)
Definition not_shadowed (self : FontManager) (w : World) (reg_name target : string) : Prop :=
  forall v, (reg_name, v) ∈ winreg.values w machine_key ->
            Str.lower (resolve (system_fonts_dir self) v) <> Str.lower target.

(** Containment of a path in a directory, without regard to case: the
    path starts with the directory and goes on with a separator. *)
Definition lies_under (directory p : string) : bool :=
  Str.startswith (Str.lower p) (Str.lower directory)
  && ntpath.head_is_sep (Str.drop (String.length directory) p).

(** The value name, the target path and the catalog record of a .ttf file
    installed for the user. *)
Definition truetype_name (font_path : string) : string :=
  (ntpath.splitext (ntpath.basename font_path)).1 ++ " (TrueType)".

Definition user_target (self : FontManager) (font_path : string) : string :=
  ntpath.join (user_fonts_dir self) [ntpath.basename font_path].

Definition installed_record (self : FontManager) (font_path : string) : FontRecord :=
  record_of self (user_fonts_dir self) (truetype_name font_path, ntpath.basename font_path).

(** The value name [install_font] derives from its argument. *)
Definition install_reg_name (font_path : string) : string :=
  let font_name := (ntpath.splitext (ntpath.basename font_path)).1 in
  if Str.eqb (install_ext font_path) ".ttf" then font_name ++ " (TrueType)"
  else if Str.eqb (install_ext font_path) ".otf" then font_name ++ " (OpenType)"
  else font_name.

(** The [except] clauses of [install_font]: the pair returned for a
    raised exception. *)
Definition install_failure (install_type : string) (e : exn) : bool * string :=
  match class_of e with
  | PermissionError =>
      if Str.eqb install_type "system"
      then (false, "安装系统字体需要管理员权限，请以管理员身份运行程序")
      else (false, "权限不足")
  | _ => (false, "安装失败: " ++ str e)
  end.

(** A Windows path with a drive letter and a root, like C:\dir\file. *)
Definition drive_absolute (p : string) : bool :=
  match p with
  | String _ (String c (String s _)) => Str.ascii_eqb c Str.colon && ntpath.is_sep s
  | _ => false
  end.

(** ** The class [FontManagerGUI]: lists, filters, batches *)

(** The attributes of the window that hold data: the catalog and its two
    filtered views, the selected tab, the search box, the status line and
    the rows of the list view (name, file, path). *)
Record FontManagerGUI := mk_FontManagerGUI {
  font_manager : FontManager;
  all_fonts : list FontRecord;
  current_fonts : list FontRecord;
  filtered_fonts : list FontRecord;
  current_tab : string;
  search_var : string;
  status_var : string;
  tree : list (string * string * string)
}.

(** [_update_tree], lines 679-717. The two counters of the loop are never
    read and are left out. *)
Definition _update_tree (g : FontManagerGUI) : FontManagerGUI :=
  let rows := (fun font_info => (name font_info, file font_info, path font_info))
                <$> filtered_fonts g in
  let count := length (filtered_fonts g) in
  let total := length (current_fonts g) in
  let font_type_text :=
    if Str.eqb (current_tab g) "system" then "系统字体" else "用户字体" in
  let status :=
    if (count =? total)%nat
    then "共 " ++ Str.of_nat total ++ " 个" ++ font_type_text
    else "显示 " ++ Str.of_nat count ++ " 个" ++ font_type_text
         ++ "（共 " ++ Str.of_nat total ++ " 个）" in
  mk_FontManagerGUI (font_manager g) (all_fonts g) (current_fonts g) (filtered_fonts g)
    (current_tab g) (search_var g) status rows.

(** The condition of the search comprehension of [_apply_filters]. *)
Definition search_matches (search_text : string) (f : FontRecord) : bool :=
  Str.contains (Str.lower (name f)) search_text
  || Str.contains (Str.lower (file f)) search_text.

(** [_apply_filters], lines 719-737. *)
Definition _apply_filters (g : FontManagerGUI) : FontManagerGUI :=
  let current :=
    if Str.eqb (current_tab g) "user"
    then filter (fun f => type f = "用户字体") (all_fonts g)
    else filter (fun f => type f = "系统字体") (all_fonts g) in
  let search_text := Str.lower (search_var g) in
  let filtered :=
    if negb (Str.is_empty search_text)
    then filter (fun f => search_matches search_text f = true) current
    else current in
  _update_tree
    (mk_FontManagerGUI (font_manager g) (all_fonts g) current filtered
       (current_tab g) (search_var g) (status_var g) (tree g)).

(** [_filter_fonts], lines 739-741. *)
Definition _filter_fonts (g : FontManagerGUI) : FontManagerGUI := _apply_filters g.

(** The family name [_preview_font_inline] derives from a registry value
    name, lines 799-803: the first literal of the list that occurs in the
    name cuts it, and only then is the result stripped. *)
Definition TYPE_SUFFIXES : list string :=
  [" (TrueType)"; " (OpenType)"; " (TTC)"; " & "; "(TrueType)"; "(OpenType)"].

Fixpoint cut_first_suffix (suffixes : list string) (actual_font_name : string) : string :=
  match suffixes with
  | [] => actual_font_name
  | suffix :: rest =>
      if Str.contains actual_font_name suffix
      then Str.strip (Str.split_head actual_font_name suffix)
      else cut_first_suffix rest actual_font_name
  end.

Definition actual_font_name (font_name : string) : string :=
  cut_first_suffix TYPE_SUFFIXES font_name.

(** What the window does besides changing the machine: the message boxes
    it shows and the refreshes it starts, in order. *)
Inductive ui_event :=
| ShowInfo (title message : string)
| ShowWarning (title message : string)
| ShowError (title message : string)
| AskYesNo (title message : string)
| LoadFonts
| ShowPreviewHint.

(** The three counters of a batch. *)
Record Tally := mk_Tally {
  success_count : nat;
  fail_count : nat;
  errors : list string
}.

(** The text both batches report, lines 926-933 and 1034-1041; [done] is
    the opening word of the first line. *)
Definition result_msg (done : string) (t : Tally) : string :=
  let result_msg := done ++ " " ++ Str.of_nat (success_count t) ++ " 个字体" in
  if (0 <? fail_count t)%nat then
    let result_msg := result_msg ++ Str.nl ++ "失败 " ++ Str.of_nat (fail_count t) ++ " 个" in
    match errors t with
    | [] => result_msg
    | _ =>
        let result_msg :=
          result_msg ++ Str.nl ++ Str.nl ++ "错误详情:" ++ Str.nl
          ++ Str.join Str.nl (take 5 (errors t)) in
        if (5 <? length (errors t))%nat
        then result_msg ++ Str.nl ++ "... 还有 " ++ Str.of_nat (length (errors t) - 5) ++ " 个错误"
        else result_msg
    end
  else result_msg.

Section Batches.

Variable g : FontManagerGUI.

(** The loop of [_install_font] over the chosen files, lines 911-921. *)
Fixpoint install_files (install_type : string) (file_paths : list string) (t : Tally)
  : M World Tally :=
  match file_paths with
  | [] => ret t
  | font_path :: rest =>
      let* r := install_font (font_manager g) font_path install_type in
      let '(success, message) := r in
      install_files install_type rest
        (if success
         then mk_Tally (success_count t + 1) (fail_count t) (errors t)
         else mk_Tally (success_count t) (fail_count t + 1)
                (errors t ++ [ntpath.basename font_path ++ ": " ++ message]))
  end.

(** [_install_font], lines 845-938. The two dialogs are inputs: the scope
    the user confirmed, if any, and the files the user picked. *)
Definition _install_font (install_type : option string) (file_paths : list string)
  : M World (list ui_event) :=
  match install_type with
  | None => ret []
  | Some install_type =>
      match file_paths with
      | [] => ret []
      | _ =>
          let* t := install_files install_type file_paths (mk_Tally 0 0 []) in
          let msg := result_msg "成功安装" t in
          ret [LoadFonts;
               if (0 <? success_count t)%nat
               then ShowInfo "安装完成" msg else ShowError "安装失败" msg]
      end
  end.

(** The loop of [_uninstall_font] over the selected rows, lines 1016-1024. *)
Fixpoint uninstall_fonts (font_type : string)
  (fonts_to_uninstall : list (string * string * string)) (t : Tally) : M World Tally :=
  match fonts_to_uninstall with
  | [] => ret t
  | (font_name, font_file, _) :: rest =>
      let* r := uninstall_font (font_manager g) font_name font_file font_type in
      let '(success, message) := r in
      uninstall_fonts font_type rest
        (if success
         then mk_Tally (success_count t + 1) (fail_count t) (errors t)
         else mk_Tally (success_count t) (fail_count t + 1)
                (errors t ++ [font_name ++ ": " ++ message]))
  end.

(** The question asked before a batch uninstall, lines 987-1005. *)
Definition confirm_msg (fonts_to_uninstall : list (string * string * string)) : string :=
  match fonts_to_uninstall with
  | [(font_name, font_file, font_path)] =>
      "确定要卸载字体 '" ++ font_name ++ "' 吗？" ++ Str.nl ++ Str.nl
      ++ "文件: " ++ font_file ++ Str.nl ++ "路径: " ++ font_path
  | _ =>
      let count := length fonts_to_uninstall in
      let head := "确定要批量卸载选中的 " ++ Str.of_nat count ++ " 个字体吗？"
                  ++ Str.nl ++ Str.nl ++ "即将卸载的字体包括:" ++ Str.nl in
      let listed :=
        foldl (fun msg font => msg ++ "• " ++ font.1.1 ++ Str.nl) head
          (take 5 fonts_to_uninstall) in
      if (5 <? count)%nat
      then listed ++ "... 还有 " ++ Str.of_nat (count - 5) ++ " 个字体" ++ Str.nl
      else listed
  end.

(** [_uninstall_font], lines 954-1046. The selected rows and the answer
    to the confirmation are inputs. *)
Definition _uninstall_font (selection : list (string * string * string))
  (confirmed : bool) : M World (list ui_event) :=
  match selection with
  | [] => ret [ShowWarning "提示" "请先选择要卸载的字体"]
  | _ =>
      let font_type :=
        if Str.eqb (current_tab g) "system" then "系统字体" else "用户字体" in
      if Str.eqb font_type "系统字体" then
        ret [ShowError "操作受限"
               ("无法卸载系统字体" ++ Str.nl ++ Str.nl
                ++ "系统字体由Windows管理，不支持通过此工具卸载。")]
      else
        let fonts_to_uninstall := selection in
        let question := AskYesNo "确认批量卸载" (confirm_msg fonts_to_uninstall) in
        if negb confirmed then ret [question] else
        let* t := uninstall_fonts font_type fonts_to_uninstall (mk_Tally 0 0 []) in
        let msg := result_msg "成功卸载" t in
        ret [question; LoadFonts; ShowPreviewHint;
             if (0 <? success_count t)%nat
             then ShowInfo "卸载完成" msg else ShowError "卸载失败" msg]
  end.

End Batches.

End Program.

(** ** Concrete machines used to evaluate the definitions *)

Module Demo.

#[local] Existing Instance Str.ascii_only.

Definition no_faults : syscall -> option exn := fun _ => None.

Definition fm : FontManager := init "C:\Windows" "C:\Users\u\AppData\Local".

Definition user_dir : string := "C:\Users\u\AppData\Local\Microsoft\Windows\Fonts".

(** Downloaded font files, one system font, an empty user registry. *)
Definition clean : World :=
  mk_World
    {[ "C:\dl\X.ttf" := "ttf data"; "C:\dl\a.ttc" := "ttc data";
       "C:\dl\notes.txt" := "text"; "C:\Windows\Fonts\arial.ttf" := "arial" ]}
    {[ machine_key := [("Arial (TrueType)", "arial.ttf")]; user_key := [] ]}
    0 no_faults.

(** As [clean], but the machine hive has a stale value that names the
    file a user install of X.ttf will create. *)
Definition shadowing : World :=
  mk_World
    {[ "C:\dl\X.ttf" := "ttf data"; "C:\Windows\Fonts\arial.ttf" := "arial" ]}
    {[ machine_key := [("Arial (TrueType)", "arial.ttf");
                       ("X (TrueType)", user_dir ++ "\X.ttf")];
       user_key := [] ]}
    0 no_faults.

(** One font recorded in both hives: by file name in the machine hive,
    by absolute path in the user hive. *)
Definition both_hives : World :=
  mk_World
    {[ "C:\Windows\Fonts\arial.ttf" := "arial" ]}
    {[ machine_key := [("Arial (TrueType)", "arial.ttf")];
       user_key := [("Arial (TrueType)", "C:\Windows\Fonts\arial.ttf")] ]}
    0 no_faults.

(** The user hive points into the system directory and the machine hive
    points into the user directory. *)
Definition crossed : World :=
  mk_World
    {[ "C:\Windows\Fonts\arial.ttf" := "arial"; user_dir ++ "\mine.ttf" := "mine" ]}
    {[ machine_key := [("Mine (TrueType)", user_dir ++ "\mine.ttf")];
       user_key := [("Arial (TrueType)", "C:\Windows\Fonts\arial.ttf")] ]}
    0 no_faults.

Definition access_denied : exn := mk_exn PermissionError "[WinError 5] Access is denied".

Definition deny_machine_read (c : syscall) : option exn :=
  match c with
  | SysOpenKey HKEY_LOCAL_MACHINE _ KEY_READ => Some access_denied
  | _ => None
  end.

Definition deny_remove (p : string) (c : syscall) : option exn :=
  match c with
  | SysRemove q => if bool_decide (q = p) then Some access_denied else None
  | _ => None
  end.

(** The machine hive cannot be opened; the user has one font. *)
Definition machine_denied : World :=
  mk_World
    {[ "C:\Windows\Fonts\arial.ttf" := "arial"; user_dir ++ "\mine.ttf" := "mine" ]}
    {[ machine_key := [("Arial (TrueType)", "arial.ttf")];
       user_key := [("Mine (TrueType)", "mine.ttf")] ]}
    0 deny_machine_read.

(** A user value whose file is gone. *)
Definition stale_user : World :=
  mk_World ∅ {[ machine_key := []; user_key := [("Gone (TrueType)", "gone.ttf")] ]}
    0 no_faults.

(** A user font whose file cannot be removed. *)
Definition locked_file : World :=
  mk_World
    {[ user_dir ++ "\mine.ttf" := "mine" ]}
    {[ machine_key := []; user_key := [("Mine (TrueType)", "mine.ttf")] ]}
    0 (deny_remove (user_dir ++ "\mine.ttf")).

(** As [clean], but the file a user install of X.ttf creates cannot be
    removed afterwards. *)
Definition locked_target : World :=
  mk_World (fs clean) (registry clean) 0 (deny_remove (user_dir ++ "\X.ttf")).

(** A user font registered by absolute path, in a directory next to the
    system font directory whose name begins with the same letters. *)
Definition sibling : World :=
  mk_World
    {[ "C:\Windows\FontsOld\old.ttf" := "old" ]}
    {[ machine_key := []; user_key := [("Old (TrueType)", "C:\Windows\FontsOld\old.ttf")] ]}
    0 no_faults.

(** A manager whose user directory lies below its system directory. *)
Definition nested : FontManager := init "C:\W" "C:\W\Fonts\u".

Definition deny_user_write (c : syscall) : option exn :=
  match c with
  | SysOpenKey HKEY_CURRENT_USER _ KEY_SET_VALUE => Some access_denied
  | _ => None
  end.

(** As [clean], but the user key cannot be opened for writing. *)
Definition user_write_denied : World :=
  mk_World (fs clean) (registry clean) 0 deny_user_write.

(** One font file reachable under two spellings of its name, as on a
    file system that ignores case: the machine hive has it with a small
    umlaut, by absolute path, the user hive with a capital umlaut. *)
Definition umlauts : World :=
  mk_World
    {[ user_dir ++ "\ä.ttf" := "font"; user_dir ++ "\Ä.ttf" := "font" ]}
    {[ machine_key := [("A (TrueType)", user_dir ++ "\ä.ttf")];
       user_key := [("A (TrueType)", "Ä.ttf")] ]}
    0 no_faults.

(** The window on a tab, with nothing loaded. *)
Definition window (tab : string) : FontManagerGUI :=
  mk_FontManagerGUI fm [] [] [] tab "" "" [].

End Demo.

(** * Properties *)

(** ** Facts about [ntpath] and about strings *)

Lemma ascii_eqb_eq (a b : ascii) : Str.ascii_eqb a b = true -> a = b.
Proof. unfold Str.ascii_eqb. apply Ascii.eqb_eq. Qed.

Lemma append_empty_r (s : string) : s ++ "" = s.
Proof.
  induction s as [|c r IH]; [reflexivity|].
  change (String c (r ++ "") = String c r). f_equal. exact IH.
Qed.

Module ntpath_facts.

Import Str ntpath.

Lemma ascii_eqb_sym (a b : ascii) : ascii_eqb a b = ascii_eqb b a.
Proof. unfold ascii_eqb. apply Ascii.eqb_sym. Qed.

Lemma after_last_sep_no_sep (s : string) : has_sep (after_last_sep s) = false.
Proof.
  induction s as [|c r IH]; simpl; [reflexivity|].
  destruct (has_sep r) eqn:Hr; [exact IH|].
  destruct (is_sep c) eqn:Hc; [exact Hr|].
  simpl. rewrite Hc, Hr. reflexivity.
Qed.

Lemma norm_not_backslash (c : ascii) :
  is_sep c = false ->
  ascii_eqb backslash (if ascii_eqb c slash then backslash else c) = false.
Proof.
  unfold is_sep. intros H. apply orb_false_iff in H. destruct H as [Hb Hs].
  rewrite Hs. rewrite ascii_eqb_sym. exact Hb.
Qed.

(** A name without separators is never absolute. *)
Lemma isabs_no_sep (s : string) : has_sep s = false -> isabs s = false.
Proof.
  intros H. unfold isabs.
  destruct s as [|a [|b [|c r]]];
    cbn [take drop replace Str.map startswith has_sep sep] in *;
    try reflexivity;
    repeat match goal with
           | H : _ || _ = false |- _ => apply orb_false_iff in H; destruct H
           end;
    rewrite ?norm_not_backslash by assumption;
    cbn [andb orb]; rewrite ?andb_false_r; reflexivity.
Qed.

Lemma isabs_basename (p : string) : isabs (basename p) = false.
Proof. apply isabs_no_sep. apply after_last_sep_no_sep. Qed.

End ntpath_facts.

Module Str_facts.

Import Str.

Lemma ascii_eqb_refl (a : ascii) : ascii_eqb a a = true.
Proof. unfold ascii_eqb. apply Ascii.eqb_refl. Qed.

Lemma startswith_empty (s : string) : startswith s EmptyString = true.
Proof. destruct s; reflexivity. Qed.

Lemma startswith_spec (s p : string) :
  startswith s p = true <-> exists post, s = p ++ post.
Proof.
  revert s. induction p as [|a p IH]; intros s.
  - split; [intros _; exists s; reflexivity | intros _; destruct s; reflexivity].
  - destruct s as [|b s]; simpl.
    + split; [discriminate | intros [post H]; discriminate H].
    + rewrite andb_true_iff, IH. split.
      * intros [Hab [post ->]]. apply ascii_eqb_eq in Hab. subst b.
        exists post. reflexivity.
      * intros [post H]. injection H as -> ->.
        split; [apply ascii_eqb_refl | exists post; reflexivity].
Qed.

(** [sub in s] holds exactly when [s] is some text, [sub], some text. *)
Lemma contains_spec (s sub : string) :
  contains s sub = true <-> exists pre post, s = pre ++ sub ++ post.
Proof.
  induction s as [|c s IH].
  - cbn [contains]. rewrite orb_false_r, startswith_spec. split.
    + intros [post H]. exists EmptyString, post. exact H.
    + intros (pre & post & H). destruct pre; [exists post; exact H | discriminate H].
  - cbn [contains]. rewrite orb_true_iff, startswith_spec, IH. split.
    + intros [[post H] | (pre & post & H)].
      * exists EmptyString, post. exact H.
      * exists (String c pre), post. rewrite H. reflexivity.
    + intros (pre & post & H). destruct pre as [|d pre].
      * left. exists post. exact H.
      * right. injection H as _ H. exists pre, post. exact H.
Qed.

Lemma contains_empty (s : string) : contains s EmptyString = true.
Proof. destruct s; reflexivity. Qed.

Lemma contains_find_sub (s sub : string) :
  contains s sub = match find_sub s sub with Some _ => true | None => false end.
Proof.
  induction s as [|c s IH]; cbn [contains find_sub].
  - destruct (startswith EmptyString sub); reflexivity.
  - destruct (startswith (String c s) sub); [reflexivity|].
    rewrite IH. destruct (find_sub s sub); reflexivity.
Qed.

(** A pattern whose first character does not occur in its remainder
    cannot begin inside [stem] and run into a text that starts with that
    character. *)
Lemma startswith_app_fresh (c : ascii) (rest : string) (pat : string) :
  forall stem,
    contains pat (String c EmptyString) = false ->
    startswith (stem ++ String c rest) pat = startswith stem pat.
Proof.
  induction pat as [|a pat IH]; intros stem Hfresh.
  - destruct stem; reflexivity.
  - cbn [contains startswith] in Hfresh. apply orb_false_iff in Hfresh.
    destruct Hfresh as [Hac Hpat]. rewrite startswith_empty, andb_true_r in Hac.
    destruct stem as [|b stem].
    + change (EmptyString ++ String c rest) with (String c rest).
      cbn [startswith]. rewrite (ntpath_facts.ascii_eqb_sym a c), Hac. reflexivity.
    + change (String b stem ++ String c rest) with (String b (stem ++ String c rest)).
      cbn [startswith]. rewrite IH by exact Hpat. reflexivity.
Qed.

Lemma find_sub_app_fresh (c : ascii) (q rest : string) :
  contains q (String c EmptyString) = false ->
  forall stem,
    find_sub stem (String c q) = None ->
    find_sub (stem ++ String c rest) (String c q)
    = option_map (fun i => String.length stem + i) (find_sub (String c rest) (String c q)).
Proof.
  intros Hfresh stem.
  assert (Hgoal : forall y,
    find_sub stem (String c q) = None ->
    find_sub (String c rest) (String c q) = y ->
    find_sub (stem ++ String c rest) (String c q)
    = option_map (fun i => String.length stem + i) y).
  { induction stem as [|b stem IH]; intros y Hnone Hy.
    - change (EmptyString ++ String c rest) with (String c rest).
      rewrite Hy. destruct y; reflexivity.
    - change (String b stem ++ String c rest) with (String b (stem ++ String c rest)).
      cbn [find_sub] in Hnone |- *. cbn [startswith] in Hnone |- *.
      rewrite startswith_app_fresh by exact Hfresh.
      destruct (ascii_eqb c b && startswith stem q); [discriminate Hnone|].
      destruct (find_sub stem (String c q)) eqn:Hs; [discriminate Hnone|].
      rewrite (IH y eq_refl Hy). destruct y; reflexivity. }
  intros Hnone. apply Hgoal; [exact Hnone | reflexivity].
Qed.

Lemma take_app_length (a b : string) : take (String.length a) (a ++ b) = a.
Proof.
  induction a as [|c a IH]; [destruct b; reflexivity|].
  change (String c a ++ b) with (String c (a ++ b)). cbn [String.length take].
  rewrite IH. reflexivity.
Qed.

Lemma find_sub_self (p rest : string) : find_sub (p ++ rest) p = Some 0.
Proof.
  assert (H : startswith (p ++ rest) p = true) by (apply startswith_spec; eauto).
  destruct (p ++ rest); cbn [find_sub]; rewrite H; reflexivity.
Qed.

(** Cutting [stem ++ suffix] at the first [suffix] gives [stem], when
    [stem] has no [suffix] and the first character of [suffix] is not
    repeated in it. *)
Lemma split_head_app_fresh (c : ascii) (q stem : string) :
  contains q (String c EmptyString) = false ->
  contains stem (String c q) = false ->
  split_head (stem ++ String c q) (String c q) = stem.
Proof.
  intros Hfresh Hstem. rewrite contains_find_sub in Hstem.
  destruct (find_sub stem (String c q)) eqn:Hnone; [discriminate|].
  unfold split_head. rewrite (find_sub_app_fresh c q q Hfresh stem Hnone).
  rewrite <- (append_empty_r (String c q)) at 1.
  rewrite find_sub_self. cbn [option_map]. rewrite Nat.add_0_r. apply take_app_length.
Qed.

Lemma contains_app_fresh (c : ascii) (q rest stem : string) :
  contains q (String c EmptyString) = false ->
  contains stem (String c q) = false ->
  contains (stem ++ String c rest) (String c q) = contains (String c rest) (String c q).
Proof.
  intros Hfresh Hstem. rewrite contains_find_sub in Hstem.
  destruct (find_sub stem (String c q)) eqn:Hnone; [discriminate|].
  rewrite !contains_find_sub, (find_sub_app_fresh c q rest Hfresh stem Hnone).
  destruct (find_sub (String c rest) (String c q)); reflexivity.
Qed.

Lemma contains_app_r (stem p : string) : contains (stem ++ p) p = true.
Proof. apply contains_spec. exists stem, EmptyString. rewrite append_empty_r. reflexivity. Qed.

End Str_facts.

(** Everything below holds for every choice of the two Unicode functions. *)
Section Properties.

Context `{unicode : !Str.Unicode}.

(** ** The enumerator as a fold over the hives *)

Section EnumeratorFacts.

Variable self : FontManager.
Variable w : World.

Lemma enum_body_eq fonts_dir key i l :
  enum_body self w fonts_dir key i l =
  match winreg.EnumValue w key i with
  | Ok nv => (Ok tt, visit self w fonts_dir l nv)
  | Raise e => (Raise e, l)
  | Diverge => (Diverge, l)
  end.
Proof.
  unfold enum_body, bind, liftR.
  destruct (winreg.EnumValue w key i) as [[n v]|e|]; try reflexivity.
  unfold visit, record_of, key_of, resolve, classify, is_system; simpl.
  destruct (os.path_exists w _); simpl; [|reflexivity].
  unfold get, put, ret; simpl.
  destruct l as [fs0 added]; simpl.
  case_bool_decide; reflexivity.
Qed.

Lemma enum_loop_eq fuel fonts_dir key :
  forall i l,
    i <= length (winreg.values w key) ->
    length (winreg.values w key) < fuel + i ->
    exists r,
      enum_loop self w fuel fonts_dir key i l =
      (r, scan self w fonts_dir (enum_prefix w key (drop i (winreg.values w key)) i) l)
      /\ r <> Diverge.
Proof.
  induction fuel as [|fuel IH]; intros i l Hi Hfuel; [lia|].
  simpl. unfold bind at 1, try_except, bind at 1.
  rewrite enum_body_eq. unfold winreg.EnumValue.
  destruct (winreg.values w key !! i) as [nv|] eqn:Hnv.
  - rewrite (drop_S _ _ _ Hnv). simpl.
    destruct (faults w (SysEnumValue key i)) as [e|] eqn:Hf.
    + destruct (is_WindowsError e); simpl.
      * exists (Ok tt). split; [reflexivity | discriminate].
      * exists (Raise e). split; [reflexivity | discriminate].
    + simpl. apply lookup_lt_Some in Hnv.
      destruct (IH (i + 1) (visit self w fonts_dir l nv)) as [r [Hr Hd]]; [lia | lia |].
      exists r. rewrite Hr. replace (i + 1) with (S i) by lia. split; [reflexivity | exact Hd].
  - apply lookup_ge_None in Hnv. rewrite (drop_ge _ _ Hnv). simpl.
    destruct (faults w (SysEnumValue key i)) as [e|] eqn:Hf.
    + destruct (is_WindowsError e); simpl.
      * exists (Ok tt). split; [reflexivity | discriminate].
      * exists (Raise e). split; [reflexivity | discriminate].
    + simpl. exists (Ok tt). split; [reflexivity | discriminate].
Qed.

(** Reading a hive never raises and never diverges: it visits the values
    the hive lets it see, in order. *)
Lemma read_hive_eq root sub_key fonts_dir label l :
  read_hive self w root sub_key fonts_dir label l =
  (Ok tt, scan self w fonts_dir (hive_entries w root sub_key) l).
Proof.
  unfold read_hive, try_except, bind, liftR, hive_entries.
  destruct (winreg.OpenKey w root sub_key KEY_READ) as [key|e|] eqn:Hopen.
  - destruct (enum_loop_eq (S (length (winreg.values w key))) fonts_dir key 0 l)
      as [r [Hr Hd]]; [lia | lia |].
    rewrite Hr. rewrite drop_0.
    destruct r as [[]|e|]; [reflexivity | reflexivity | congruence].
  - reflexivity.
  - unfold winreg.OpenKey in Hopen.
    destruct (faults w _); [discriminate|].
    destruct (registry w !! _); discriminate.
Qed.

Theorem get_installed_fonts_eq :
  get_installed_fonts self w =
  Ok (sorted name
        (fonts (scan self w (user_fonts_dir self)
                  (hive_entries w HKEY_CURRENT_USER USER_FONTS_REG_PATH)
                  (scan self w (system_fonts_dir self)
                     (hive_entries w HKEY_LOCAL_MACHINE SYSTEM_FONTS_REG_PATH)
                     (mk_Locals [] ∅))))).
Proof.
  unfold get_installed_fonts, get_installed_fonts_body.
  unfold bind at 1. rewrite read_hive_eq.
  unfold bind at 1. rewrite read_hive_eq.
  reflexivity.
Qed.

End EnumeratorFacts.

(** ** Invariants of the scan *)

Section ScanFacts.

Variable self : FontManager.
Variable w : World.

Lemma dedup_inv_init : dedup_inv (mk_Locals [] ∅).
Proof.
  split; simpl; [constructor|].
  intros k. split; intros H; [set_solver | inversion H].
Qed.

Lemma visit_cases fonts_dir l nv :
  let r := record_of self fonts_dir nv in
  (visit self w fonts_dir l nv = l /\
   (os.path_exists w (path r) = false \/ key_of r ∈ added_fonts l)) \/
  (visit self w fonts_dir l nv = mk_Locals (fonts l ++ [r]) ({[key_of r]} ∪ added_fonts l) /\
   os.path_exists w (path r) = true /\ key_of r ∉ added_fonts l).
Proof.
  intros r. unfold visit. fold r.
  destruct (os.path_exists w (path r)); simpl; [|left; auto].
  case_bool_decide; [right; auto | left; split; [reflexivity|]].
  right. destruct (decide (key_of r ∈ added_fonts l)); [assumption | contradiction].
Qed.

Lemma visit_inv fonts_dir l nv :
  dedup_inv l -> dedup_inv (visit self w fonts_dir l nv).
Proof.
  intros [Hnd Hiff].
  destruct (visit_cases fonts_dir l nv) as [[-> _] | [-> [_ Hnew]]]; [split; assumption|].
  split; simpl.
  - rewrite fmap_app. simpl. apply NoDup_app. split; [assumption|]. split.
    + intros k Hk Hin. apply list_elem_of_singleton in Hin. subst k.
      apply Hnew. apply Hiff. exact Hk.
    + apply NoDup_singleton.
  - intros k. rewrite fmap_app, elem_of_app, elem_of_union, elem_of_singleton. simpl.
    rewrite list_elem_of_singleton. rewrite Hiff. tauto.
Qed.

Lemma scan_inv fonts_dir es :
  forall l, dedup_inv l -> dedup_inv (scan self w fonts_dir es l).
Proof.
  induction es as [|nv es IH]; intros l Hl; [exact Hl|].
  simpl. apply IH. apply visit_inv. exact Hl.
Qed.

Lemma visit_mono fonts_dir l nv r :
  r ∈ fonts l -> r ∈ fonts (visit self w fonts_dir l nv).
Proof.
  intros Hr.
  destruct (visit_cases fonts_dir l nv) as [[-> _] | [-> _]]; [assumption|].
  simpl. apply elem_of_app. left. exact Hr.
Qed.

Lemma scan_mono fonts_dir es :
  forall l r, r ∈ fonts l -> r ∈ fonts (scan self w fonts_dir es l).
Proof.
  induction es as [|nv es IH]; intros l r Hr; [exact Hr|].
  simpl. apply IH. apply visit_mono. exact Hr.
Qed.

Lemma visit_added_mono fonts_dir l nv k :
  k ∈ added_fonts l -> k ∈ added_fonts (visit self w fonts_dir l nv).
Proof.
  intros Hk.
  destruct (visit_cases fonts_dir l nv) as [[-> _] | [-> _]]; [assumption|].
  simpl. set_solver.
Qed.

Lemma scan_added_mono fonts_dir es :
  forall l k, k ∈ added_fonts l -> k ∈ added_fonts (scan self w fonts_dir es l).
Proof.
  induction es as [|nv es IH]; intros l k Hk; [exact Hk|].
  simpl. apply IH. apply visit_added_mono. exact Hk.
Qed.

(** Every record comes from a visited value whose file exists. *)
Lemma scan_provenance fonts_dir es :
  forall l r,
    r ∈ fonts (scan self w fonts_dir es l) ->
    r ∈ fonts l \/
    exists nv, nv ∈ es /\ r = record_of self fonts_dir nv /\
               os.path_exists w (path r) = true.
Proof.
  induction es as [|nv es IH]; intros l r Hr; [left; exact Hr|].
  simpl in Hr. apply IH in Hr. destruct Hr as [Hr | [nv' [Hin [Heq Hex]]]].
  - destruct (visit_cases fonts_dir l nv) as [[Hv _] | [Hv [Hex _]]]; rewrite Hv in Hr.
    + left. exact Hr.
    + simpl in Hr. apply elem_of_app in Hr. destruct Hr as [Hr | Hr]; [left; exact Hr|].
      apply list_elem_of_singleton in Hr. subst r.
      right. exists nv. split; [left | split; [reflexivity | exact Hex]].
  - right. exists nv'. split; [right; exact Hin | split; assumption].
Qed.

(** Every visited value whose file exists has its key in the set. *)
Lemma scan_complete fonts_dir es :
  forall l nv,
    nv ∈ es ->
    os.path_exists w (resolve fonts_dir nv.2) = true ->
    key_of (record_of self fonts_dir nv) ∈ added_fonts (scan self w fonts_dir es l).
Proof.
  induction es as [|nv0 es IH]; intros l nv Hin Hex; [inversion Hin|].
  simpl. apply elem_of_cons in Hin. destruct Hin as [-> | Hin].
  - apply scan_added_mono.
    destruct (visit_cases fonts_dir l nv0) as [[-> [Hno | Hk]] | [-> _]].
    + simpl in Hno. congruence.
    + exact Hk.
    + simpl. set_solver.
  - apply IH; assumption.
Qed.

(** The first visited value that brings a new key is the one recorded. *)
Lemma scan_first fonts_dir es_a nv es_b l :
  key_of (record_of self fonts_dir nv) ∉ added_fonts l ->
  (forall nv', nv' ∈ es_a ->
     key_of (record_of self fonts_dir nv') <> key_of (record_of self fonts_dir nv)) ->
  os.path_exists w (resolve fonts_dir nv.2) = true ->
  record_of self fonts_dir nv ∈ fonts (scan self w fonts_dir (es_a ++ nv :: es_b) l).
Proof.
  revert l. induction es_a as [|nv0 es_a IH]; intros l Hnew Hdiff Hex.
  - simpl. apply scan_mono.
    destruct (visit_cases fonts_dir l nv) as [[_ [Hno | Hk]] | [-> _]].
    + simpl in Hno. congruence.
    + contradiction.
    + simpl. apply elem_of_app. right. apply list_elem_of_singleton. reflexivity.
  - simpl. apply IH; [| intros nv' Hin; apply Hdiff; right; exact Hin | exact Hex].
    destruct (visit_cases fonts_dir l nv0) as [[-> _] | [-> _]]; [exact Hnew|].
    simpl. intros Hin. apply elem_of_union in Hin. destruct Hin as [Hin | Hin]; [|contradiction].
    apply elem_of_singleton in Hin. apply (Hdiff nv0); [left | congruence].
Qed.

(** Keys in the set come from the initial set or from a visited value. *)
Lemma scan_added_provenance fonts_dir es :
  forall l k,
    k ∈ added_fonts (scan self w fonts_dir es l) ->
    k ∈ added_fonts l \/
    exists nv, nv ∈ es /\ k = key_of (record_of self fonts_dir nv) /\
               os.path_exists w (resolve fonts_dir nv.2) = true.
Proof.
  induction es as [|nv es IH]; intros l k Hk; [left; exact Hk|].
  simpl in Hk. apply IH in Hk. destruct Hk as [Hk | [nv' [Hin [Heq Hex]]]].
  - destruct (visit_cases fonts_dir l nv) as [[Hv _] | [Hv [Hex _]]]; rewrite Hv in Hk.
    + left. exact Hk.
    + simpl in Hk. apply elem_of_union in Hk. destruct Hk as [Hk | Hk]; [|left; exact Hk].
      apply elem_of_singleton in Hk. right. exists nv.
      split; [left | split; [exact Hk | exact Hex]].
  - right. exists nv'. split; [right; exact Hin | split; assumption].
Qed.

End ScanFacts.

(** ** Sorting *)

Lemma insert_by_Permutation {A} (key : A -> string) (x : A) (l : list A) :
  insert_by key x l ≡ₚ x :: l.
Proof.
  induction l as [|y r IH]; simpl; [reflexivity|].
  destruct (String.leb (key x) (key y)); [reflexivity|].
  rewrite IH. apply Permutation_swap.
Qed.

Lemma sorted_Permutation {A} (key : A -> string) (l : list A) :
  sorted key l ≡ₚ l.
Proof.
  induction l as [|x l IH]; simpl; [reflexivity|].
  rewrite insert_by_Permutation. rewrite IH. reflexivity.
Qed.

Lemma elem_of_sorted {A} (key : A -> string) (l : list A) (x : A) :
  x ∈ sorted key l <-> x ∈ l.
Proof. rewrite sorted_Permutation. reflexivity. Qed.


(** ** What the installer and the uninstaller do *)

Lemma notify_font_change_eq (w : World) :
  _notify_font_change w = (Ok tt, set_notify_calls (S (notify_calls w)) w).
Proof.
  unfold _notify_font_change, try_except, SendMessageTimeoutW.
  destruct (faults w SysSendMessageTimeout); reflexivity.
Qed.

Lemma OpenKey_Ok (w : World) root sub_key sam key :
  winreg.OpenKey w root sub_key sam = Ok key ->
  key = (root, sub_key) /\ faults w (SysOpenKey root sub_key sam) = None /\
  is_Some (registry w !! key).
Proof.
  unfold winreg.OpenKey. destruct (faults w _); [discriminate|].
  destruct (registry w !! (root, sub_key)) eqn:Hk; [|discriminate].
  intros [= <-]. split; [reflexivity|]. split; [reflexivity|]. eauto.
Qed.

Lemma path_exists_true (w : World) (p data : string) :
  fs w !! p = Some data -> os.path_exists w p = true.
Proof. intros H. unfold os.path_exists. rewrite H. apply bool_decide_eq_true_2. eauto. Qed.

Lemma path_exists_false (w : World) (p : string) :
  fs w !! p = None -> os.path_exists w p = false.
Proof.
  intros H. unfold os.path_exists. rewrite H. apply bool_decide_eq_false_2.
  intros [x Hx]. discriminate.
Qed.

Section InstallFacts.

Variable self : FontManager.

(** A successful install went through every validation, copied the file
    and wrote one registry value. *)
Lemma install_font_success font_path install_type w msg w' :
  install_font self font_path install_type w = (Ok (true, msg), w') ->
  let ext := install_ext font_path in
  let font_filename := ntpath.basename font_path in
  let target := install_target self font_path install_type in
  let key := install_key install_type in
  let reg_name :=
    (ntpath.splitext font_filename).1 ++
    (if Str.eqb ext ".ttf" then " (TrueType)"
     else if Str.eqb ext ".otf" then " (OpenType)" else "") in
  ext ∈ [".ttf"; ".otf"; ".ttc"] /\
  os.path_exists w target = false /\
  (exists data, fs w !! font_path = Some data /\ fs w' = <[target := data]> (fs w)) /\
  is_Some (registry w !! key) /\
  registry w' = <[key := winreg.set_value reg_name font_filename (winreg.values w key)]> (registry w) /\
  faults w' = faults w /\
  faults w (SysOpenKey key.1 key.2 KEY_SET_VALUE) = None /\
  notify_calls w' = S (notify_calls w) /\
  msg = "字体已成功安装为" ++ install_type_name install_type.
Proof.
  unfold install_font, install_ext, install_target, install_key, install_dir,
    install_type_name.
  unfold bind at 1, exists_ at 1.
  destruct (os.path_exists w font_path) eqn:Hsrc; simpl; [|intros [=]].
  case_bool_decide as Hext; simpl; [|intros [=]].
  destruct (Str.eqb install_type "system") eqn:Hty.
  all: unfold bind at 1, exists_ at 1;
    match goal with |- context [os.path_exists _ ?t] =>
      destruct (os.path_exists w t) eqn:Htgt end; simpl; [intros [=]|].
  all: unfold try_except, bind at 1, shutil.copy2.
  all: destruct (faults w (SysCopy2 _ _)) as [e|];
    [simpl; destruct (class_of e); rewrite ?Hty; intros [=]|].
  all: destruct (fs w !! font_path) as [data|] eqn:Hdata; [|simpl; intros [=]].
  all: unfold bind at 1, OpenKey, winreg.OpenKey; simpl.
  all: match goal with |- context [faults _ (SysOpenKey ?a ?b ?c)] =>
      destruct (faults w (SysOpenKey a b c)) as [e|] eqn:Hopen end;
    [simpl; destruct (class_of e); rewrite ?Hty; intros [=]|].
  all: match goal with |- context [registry _ !! ?k] =>
      destruct (registry w !! k) as [vs|] eqn:Hkey end;
    [|simpl; intros [=]].
  all: unfold bind at 1, winreg.SetValueEx; simpl.
  all: match goal with |- context [faults _ (SysSetValueEx ?k ?n)] =>
      destruct (faults w (SysSetValueEx k n)) as [e|] end;
    [simpl; destruct (class_of e); rewrite ?Hty; intros [=]|].
  all: unfold bind at 1; rewrite notify_font_change_eq; simpl.
  all: intros [= <- <-]; simpl.
  all: unfold winreg.values, set_fs; cbn [registry].
  all: repeat split; eauto.
  all: do 2 f_equal.
  all: destruct (Str.eqb (Str.lower (ntpath.splitext font_path).2) ".ttf");
    [reflexivity|].
  all: destruct (Str.eqb (Str.lower (ntpath.splitext font_path).2) ".otf");
    [reflexivity|].
  all: symmetry; apply append_empty_r.
Qed.

End InstallFacts.

Section UninstallFacts.

Variable self : FontManager.

(** [uninstall_font], step by step. *)
Lemma uninstall_font_eq font_name font_file font_type w :
  uninstall_font self font_name font_file font_type w =
  let key := uninstall_key font_type in
  let target := uninstall_target self font_file font_type in
  match winreg.OpenKey w key.1 key.2 KEY_SET_VALUE with
  | Ok k =>
      match winreg.DeleteValue k font_name w with
      | (Ok _, w1) =>
          if os.path_exists w1 target then
            match os.remove target w1 with
            | (Ok _, w2) =>
                (Ok (true, font_type ++ "卸载成功"),
                 set_notify_calls (S (notify_calls w2)) w2)
            | (Raise e, w2) => (Ok (uninstall_failure font_type e), w2)
            | (Diverge, w2) => (Diverge, w2)
            end
          else
            (Ok (true, font_type ++ "卸载成功"),
             set_notify_calls (S (notify_calls w1)) w1)
      | (Raise e, w1) => (Ok (uninstall_failure font_type e), w1)
      | (Diverge, w1) => (Diverge, w1)
      end
  | Raise e => (Ok (uninstall_failure font_type e), w)
  | Diverge => (Diverge, w)
  end.
Proof.
  unfold uninstall_font, uninstall_key, uninstall_target, uninstall_dir,
    uninstall_failure.
  destruct (Str.eqb font_type "系统字体") eqn:Hty; cbn [fst snd].
  all: unfold try_except, bind at 1, OpenKey.
  all: match goal with |- context [winreg.OpenKey _ ?a ?b ?c] =>
      destruct (winreg.OpenKey w a b c) as [k|e|] end;
    [| destruct (class_of e); reflexivity | reflexivity].
  all: unfold bind at 1.
  all: destruct (winreg.DeleteValue k font_name w) as [[[]|e|] w1];
    [| destruct (class_of e); reflexivity | reflexivity].
  all: unfold bind at 1, exists_ at 1.
  all: match goal with |- context [os.path_exists _ ?t] =>
      destruct (os.path_exists w1 t) end.
  all: unfold bind at 1.
  all: try (match goal with |- context [os.remove ?t _] =>
      destruct (os.remove t w1) as [[[]|e|] w2] end;
    [| destruct (class_of e); reflexivity | reflexivity]).
  all: unfold bind, ret; rewrite notify_font_change_eq; reflexivity.
Qed.

End UninstallFacts.

(** ** The installer: validation *)

Section InstallValidation.

Variable self : FontManager.

Lemma install_font_missing_source font_path install_type w :
  os.path_exists w font_path = false ->
  install_font self font_path install_type w = (Ok (false, MSG_FILE_NOT_FOUND), w).
Proof.
  intros H. unfold install_font, bind, exists_. rewrite H. reflexivity.
Qed.

Lemma install_font_bad_extension font_path install_type w :
  os.path_exists w font_path = true ->
  install_ext font_path ∉ [".ttf"; ".otf"; ".ttc"] ->
  install_font self font_path install_type w = (Ok (false, MSG_UNSUPPORTED_FORMAT), w).
Proof.
  intros H Hext. unfold install_font, bind, exists_. rewrite H. cbn [negb].
  unfold install_ext in Hext. rewrite (bool_decide_eq_false_2 _ Hext). reflexivity.
Qed.

Lemma install_font_target_present font_path install_type w :
  os.path_exists w font_path = true ->
  install_ext font_path ∈ [".ttf"; ".otf"; ".ttc"] ->
  os.path_exists w (install_target self font_path install_type) = true ->
  install_font self font_path install_type w =
  (Ok (false, MSG_ALREADY_INSTALLED install_type), w).
Proof.
  intros H Hext Htgt. unfold install_font, bind at 1, exists_ at 1. rewrite H. cbn [negb].
  unfold install_ext in Hext. rewrite (bool_decide_eq_true_2 _ Hext). cbn [negb].
  unfold install_target, install_dir in Htgt.
  unfold MSG_ALREADY_INSTALLED, install_type_name.
  destruct (Str.eqb install_type "system");
    unfold bind, exists_; rewrite Htgt; reflexivity.
Qed.

End InstallValidation.

(** C4: the installer checks, in this order, that the source exists, that
    its extension is one of .ttf, .otf, .ttc, and that no file of that name
    is in the scope's font directory; the first check that fails decides the
    answer, whatever the later checks would say. *)
Theorem install_validation_order (self : FontManager) (font_path install_type : string)
  (w : World) :
  (os.path_exists w font_path = false ->
   (install_font self font_path install_type w).1 = Ok (false, MSG_FILE_NOT_FOUND)) /\
  (os.path_exists w font_path = true ->
   install_ext font_path ∉ [".ttf"; ".otf"; ".ttc"] ->
   (install_font self font_path install_type w).1 = Ok (false, MSG_UNSUPPORTED_FORMAT)) /\
  (os.path_exists w font_path = true ->
   install_ext font_path ∈ [".ttf"; ".otf"; ".ttc"] ->
   os.path_exists w (install_target self font_path install_type) = true ->
   (install_font self font_path install_type w).1 =
   Ok (false, MSG_ALREADY_INSTALLED install_type)).
Proof.
  split; [|split].
  - intros H. rewrite install_font_missing_source by exact H. reflexivity.
  - intros H Hext. rewrite install_font_bad_extension by assumption. reflexivity.
  - intros H Hext Htgt. rewrite install_font_target_present by assumption. reflexivity.
Qed.

(** C5: when a validation of the installer fails, the machine is left as
    it was: no file is copied, no registry value is written, nothing is
    broadcast. In particular, whenever the destination file exists, it keeps
    its content. *)
Theorem install_validation_failure_no_mutation (self : FontManager)
  (font_path install_type : string) (w : World) :
  (os.path_exists w font_path = false \/
   install_ext font_path ∉ [".ttf"; ".otf"; ".ttc"] \/
   os.path_exists w (install_target self font_path install_type) = true ->
   exists msg, install_font self font_path install_type w = (Ok (false, msg), w)) /\
  (forall data,
     fs w !! install_target self font_path install_type = Some data ->
     fs (install_font self font_path install_type w).2
       !! install_target self font_path install_type = Some data).
Proof.
  assert (Hfail :
    os.path_exists w font_path = false \/
    install_ext font_path ∉ [".ttf"; ".otf"; ".ttc"] \/
    os.path_exists w (install_target self font_path install_type) = true ->
    exists msg, install_font self font_path install_type w = (Ok (false, msg), w)).
  { intros H.
    destruct (os.path_exists w font_path) eqn:Hsrc.
    - destruct (decide (install_ext font_path ∈ [".ttf"; ".otf"; ".ttc"])) as [Hext|Hext].
      + destruct H as [H | [H | H]]; [discriminate | contradiction |].
        eexists. apply install_font_target_present; assumption.
      + eexists. apply install_font_bad_extension; assumption.
    - eexists. apply install_font_missing_source; exact Hsrc. }
  split; [exact Hfail|].
  intros data Hdata.
  destruct Hfail as [msg Hmsg].
  - right. right. unfold os.path_exists. rewrite Hdata.
    apply bool_decide_eq_true_2. eauto.
  - rewrite Hmsg. exact Hdata.
Qed.

Lemma ext_allowed (ext : string) (l : list string) :
  bool_decide (ext ∈ l) = true -> ext ∈ l.
Proof. apply bool_decide_eq_true_1. Qed.

Lemma ext_not_allowed (ext : string) (l : list string) :
  bool_decide (ext ∈ l) = false -> ext ∉ l.
Proof. apply bool_decide_eq_false_1. Qed.

(** ** The installer: the registry value it writes *)

Lemma Str_eqb_false (a b : string) : a <> b -> Str.eqb a b = false.
Proof. intros H. unfold Str.eqb. apply bool_decide_eq_false_2. exact H. Qed.

Lemma Str_eqb_refl (a : string) : Str.eqb a a = true.
Proof. unfold Str.eqb. apply bool_decide_eq_true_2. reflexivity. Qed.

Lemma set_value_elem (n d : string) (vs : list (string * string)) :
  (n, d) ∈ winreg.set_value n d vs.
Proof.
  induction vs as [|[n0 d0] vs IH]; simpl; [left|].
  case_bool_decide as Hn; [subst n0; left | right; exact IH].
Qed.

(** C1, as the code has it: after a successful install the scope's key
    holds a value whose data is the source file name and whose name is that
    file name without its extension, followed by " (TrueType)" for .ttf, by
    " (OpenType)" for .otf, and by nothing for .ttc. *)
Theorem install_display_name (self : FontManager) (font_path install_type : string)
  (w : World) (msg : string) (w' : World) :
  install_font self font_path install_type w = (Ok (true, msg), w') ->
  exists annotation,
    (install_ext font_path, annotation)
      ∈ [(".ttf", " (TrueType)"); (".otf", " (OpenType)"); (".ttc", "")] /\
    let font_filename := ntpath.basename font_path in
    let reg_name := (ntpath.splitext font_filename).1 ++ annotation in
    registry w' !! install_key install_type =
      Some (winreg.set_value reg_name font_filename
              (winreg.values w (install_key install_type))) /\
    (reg_name, font_filename) ∈ winreg.values w' (install_key install_type).
Proof.
  intros H. apply install_font_success in H.
  destruct H as (Hext & _ & _ & _ & Hreg & _).
  set (ext := install_ext font_path) in *.
  assert (Hann : exists annotation,
    (ext, annotation) ∈ [(".ttf", " (TrueType)"); (".otf", " (OpenType)"); (".ttc", "")] /\
    (if Str.eqb ext ".ttf" then " (TrueType)"
     else if Str.eqb ext ".otf" then " (OpenType)" else "") = annotation).
  { apply elem_of_cons in Hext. destruct Hext as [-> | Hext].
    { exists " (TrueType)". split; [left | reflexivity]. }
    apply elem_of_cons in Hext. destruct Hext as [-> | Hext].
    { exists " (OpenType)". split; [right; left | reflexivity]. }
    apply list_elem_of_singleton in Hext. rewrite Hext.
    exists "". split; [right; right; left | reflexivity]. }
  destruct Hann as (annotation & Hin & Heq). rewrite Heq in Hreg.
  exists annotation. split; [exact Hin|]. cbn zeta.
  assert (Hlook : registry w' !! install_key install_type =
    Some (winreg.set_value ((ntpath.splitext (ntpath.basename font_path)).1 ++ annotation)
            (ntpath.basename font_path) (winreg.values w (install_key install_type)))).
  { rewrite Hreg. apply lookup_insert_eq. }
  split; [exact Hlook|].
  unfold winreg.values at 1. rewrite Hlook. apply set_value_elem.
Qed.

(** ** The installer after its validations *)

Lemma run_eq {A} (m : Res A * World) (r : Res A) : m.1 = r -> m = (r, m.2).
Proof. destruct m as [r' w']. simpl. intros ->. reflexivity. Qed.

Section InstallRun.

Variable self : FontManager.

(** [install_font] once the three validations have passed, step by step. *)
Lemma install_font_run font_path install_type w :
  os.path_exists w font_path = true ->
  install_ext font_path ∈ [".ttf"; ".otf"; ".ttc"] ->
  os.path_exists w (install_target self font_path install_type) = false ->
  install_font self font_path install_type w =
  let target := install_target self font_path install_type in
  let key := install_key install_type in
  match shutil.copy2 font_path target w with
  | (Ok _, w1) =>
      match winreg.OpenKey w1 key.1 key.2 KEY_SET_VALUE with
      | Ok k =>
          match winreg.SetValueEx k (install_reg_name font_path)
                  (ntpath.basename font_path) w1 with
          | (Ok _, w2) =>
              (Ok (true, "字体已成功安装为" ++ install_type_name install_type),
               set_notify_calls (S (notify_calls w2)) w2)
          | (Raise e, w2) => (Ok (install_failure install_type e), w2)
          | (Diverge, w2) => (Diverge, w2)
          end
      | Raise e => (Ok (install_failure install_type e), w1)
      | Diverge => (Diverge, w1)
      end
  | (Raise e, w1) => (Ok (install_failure install_type e), w1)
  | (Diverge, w1) => (Diverge, w1)
  end.
Proof.
  intros Hsrc Hext Htgt.
  unfold install_font, install_reg_name, install_failure.
  unfold install_ext, install_target, install_key, install_dir, install_type_name in *.
  unfold bind at 1, exists_ at 1. rewrite Hsrc. cbn [negb].
  rewrite (bool_decide_eq_true_2 _ Hext). cbn [negb].
  destruct (Str.eqb install_type "system") eqn:Hty; cbn [fst snd].
  all: unfold bind at 1, exists_ at 1; rewrite Htgt.
  all: unfold try_except, bind at 1.
  all: match goal with |- context [shutil.copy2 ?a ?b _] =>
      destruct (shutil.copy2 a b w) as [[[]|e|] w1] end;
    [| destruct (class_of e); reflexivity | reflexivity].
  all: unfold bind at 1, OpenKey.
  all: match goal with |- context [winreg.OpenKey _ ?a ?b ?c] =>
      destruct (winreg.OpenKey w1 a b c) as [k|e|] end;
    [| destruct (class_of e); reflexivity | reflexivity].
  all: unfold bind at 1.
  all: match goal with |- context [winreg.SetValueEx ?a ?b ?c _] =>
      destruct (winreg.SetValueEx a b c w1) as [[[]|e|] w2] end;
    [| destruct (class_of e); reflexivity | reflexivity].
  all: unfold bind, ret; rewrite notify_font_change_eq; reflexivity.
Qed.

End InstallRun.

(** ** The scope argument *)

Lemma uninstall_failure_user (font_type : string) (e : exn) :
  font_type <> "系统字体" ->
  uninstall_failure font_type e = uninstall_failure USER_FONT e.
Proof.
  intros H. unfold uninstall_failure. rewrite (Str_eqb_false _ _ H). reflexivity.
Qed.

(** C10: the scope argument is never validated. Every [install_type]
    other than "system" selects the user font directory and the Fonts key
    of HKEY_CURRENT_USER, and the installer does with it exactly what it
    does with "user": when the validations pass and the environment raises
    nothing, the file is copied into the user font directory, the value is
    written under HKEY_CURRENT_USER and the install is reported as a user
    font install. Every [font_type] other than the system designation
    selects the same directory and key in the uninstaller, which has the
    same effect and verdict as with the user designation (the success
    message repeats the argument): when the value is there and the
    environment raises nothing, the value is deleted from HKEY_CURRENT_USER,
    the file is removed from the user font directory and success is
    reported. No scope value is refused. *)
Theorem scope_argument_not_validated (self : FontManager) (w : World)
  (install_type font_type : string) :
  install_type <> "system" ->
  font_type <> "系统字体" ->
  (install_dir self install_type = user_fonts_dir self /\
   install_key install_type = (HKEY_CURRENT_USER, USER_FONTS_REG_PATH) /\
   uninstall_dir self font_type = user_fonts_dir self /\
   uninstall_key font_type = (HKEY_CURRENT_USER, USER_FONTS_REG_PATH)) /\
  (forall font_path,
     install_font self font_path install_type w = install_font self font_path "user" w) /\
  (forall font_path data,
     let target := ntpath.join (user_fonts_dir self) [ntpath.basename font_path] in
     fs w !! font_path = Some data ->
     install_ext font_path ∈ [".ttf"; ".otf"; ".ttc"] ->
     os.path_exists w target = false ->
     is_Some (registry w !! (HKEY_CURRENT_USER, USER_FONTS_REG_PATH)) ->
     faults w (SysCopy2 font_path target) = None ->
     faults w (SysOpenKey HKEY_CURRENT_USER USER_FONTS_REG_PATH KEY_SET_VALUE) = None ->
     faults w (SysSetValueEx (HKEY_CURRENT_USER, USER_FONTS_REG_PATH)
                 (install_reg_name font_path)) = None ->
     exists w',
       install_font self font_path install_type w
       = (Ok (true, "字体已成功安装为用户字体"), w') /\
       fs w' = <[target := data]> (fs w) /\
       registry w'
       = <[(HKEY_CURRENT_USER, USER_FONTS_REG_PATH) :=
             winreg.set_value (install_reg_name font_path) (ntpath.basename font_path)
               (winreg.values w (HKEY_CURRENT_USER, USER_FONTS_REG_PATH))]> (registry w)) /\
  (forall font_name font_file,
     let given := uninstall_font self font_name font_file font_type w in
     let user := uninstall_font self font_name font_file USER_FONT w in
     given.2 = user.2 /\
     given.1 = match user.1 with
               | Ok (true, _) => Ok (true, font_type ++ "卸载成功")
               | other => other
               end) /\
  (forall font_name font_file,
     let target := ntpath.join (user_fonts_dir self) [font_file] in
     winreg.has_value font_name
       (winreg.values w (HKEY_CURRENT_USER, USER_FONTS_REG_PATH)) = true ->
     is_Some (registry w !! (HKEY_CURRENT_USER, USER_FONTS_REG_PATH)) ->
     faults w (SysOpenKey HKEY_CURRENT_USER USER_FONTS_REG_PATH KEY_SET_VALUE) = None ->
     faults w (SysDeleteValue (HKEY_CURRENT_USER, USER_FONTS_REG_PATH) font_name) = None ->
     faults w (SysRemove target) = None ->
     exists w',
       uninstall_font self font_name font_file font_type w
       = (Ok (true, font_type ++ "卸载成功"), w') /\
       registry w'
       = <[(HKEY_CURRENT_USER, USER_FONTS_REG_PATH) :=
             winreg.delete_value font_name
               (winreg.values w (HKEY_CURRENT_USER, USER_FONTS_REG_PATH))]> (registry w) /\
       fs w' = delete target (fs w)).
Proof.
  intros Hi Hu.
  assert (Hdir : install_dir self install_type = user_fonts_dir self)
    by (unfold install_dir; rewrite (Str_eqb_false _ _ Hi); reflexivity).
  assert (Hkey : install_key install_type = (HKEY_CURRENT_USER, USER_FONTS_REG_PATH))
    by (unfold install_key; rewrite (Str_eqb_false _ _ Hi); reflexivity).
  assert (Hudir : uninstall_dir self font_type = user_fonts_dir self)
    by (unfold uninstall_dir; rewrite (Str_eqb_false _ _ Hu); reflexivity).
  assert (Hukey : uninstall_key font_type = (HKEY_CURRENT_USER, USER_FONTS_REG_PATH))
    by (unfold uninstall_key; rewrite (Str_eqb_false _ _ Hu); reflexivity).
  split; [repeat split; assumption|].
  split.
  { intros font_path. unfold install_font.
    rewrite (Str_eqb_false _ _ Hi).
    replace (Str.eqb "user" "system") with false by (vm_compute; reflexivity).
    reflexivity. }
  split.
  { intros font_path data target Hsrc Hext Htgt [vs Hvs] Hcopy Hopen Hset.
    assert (Htarget : install_target self font_path install_type = target)
      by (unfold install_target; rewrite Hdir; reflexivity).
    rewrite install_font_run;
      [| exact (path_exists_true _ _ _ Hsrc) | exact Hext | rewrite Htarget; exact Htgt].
    cbn zeta. rewrite Htarget, Hkey. cbn [fst snd].
    unfold shutil.copy2. rewrite Hcopy, Hsrc.
    unfold winreg.OpenKey. cbn [faults registry set_fs]. rewrite Hopen, Hvs.
    unfold winreg.SetValueEx. cbn [faults registry fs set_fs]. rewrite Hset.
    unfold install_type_name. rewrite (Str_eqb_false _ _ Hi).
    eexists. split; [reflexivity|]. split; reflexivity. }
  split.
  { intros font_name font_file. cbn zeta.
    rewrite !uninstall_font_eq.
    unfold uninstall_key, uninstall_target, uninstall_dir.
    rewrite (Str_eqb_false _ _ Hu).
    replace (Str.eqb USER_FONT "系统字体") with false by (vm_compute; reflexivity).
    cbn [fst snd].
    destruct (winreg.OpenKey w HKEY_CURRENT_USER USER_FONTS_REG_PATH KEY_SET_VALUE)
      as [k|e|]; cbn [fst snd].
    + destruct (winreg.DeleteValue k font_name w) as [[[]|e|] w1]; cbn [fst snd].
      * destruct (os.path_exists w1 _); cbn [fst snd]; [|split; reflexivity].
        destruct (os.remove _ w1) as [[[]|e|] w2]; cbn [fst snd].
        -- split; reflexivity.
        -- rewrite (uninstall_failure_user _ e Hu). split; [reflexivity|].
           unfold uninstall_failure. destruct (class_of e); reflexivity.
        -- split; reflexivity.
      * rewrite (uninstall_failure_user _ e Hu). split; [reflexivity|].
        unfold uninstall_failure. destruct (class_of e); reflexivity.
      * split; reflexivity.
    + rewrite (uninstall_failure_user _ e Hu). split; [reflexivity|].
      unfold uninstall_failure. destruct (class_of e); reflexivity.
    + split; reflexivity. }
  intros font_name font_file target Hhas [vs Hvs] Hopen Hdel Hrm.
  assert (Htarget : uninstall_target self font_file font_type = target)
    by (unfold uninstall_target; rewrite Hudir; reflexivity).
  rewrite uninstall_font_eq. cbn zeta. rewrite Htarget, Hukey. cbn [fst snd].
  unfold winreg.OpenKey. rewrite Hopen, Hvs.
  unfold winreg.DeleteValue. rewrite Hdel, Hhas.
  unfold os.path_exists, os.remove. cbn [fs faults set_registry]. rewrite Hrm.
  destruct (fs w !! target) as [data|] eqn:Hfile.
  - rewrite bool_decide_eq_true_2 by eauto.
    eexists. split; [reflexivity|]. split; reflexivity.
  - rewrite bool_decide_eq_false_2 by (intros [x Hx]; discriminate).
    eexists. split; [reflexivity|]. split; [reflexivity|].
    cbn [fs set_notify_calls set_registry]. symmetry. apply delete_id. exact Hfile.
Qed.

(** ** The uninstaller *)

Lemma has_value_delete_value (n : string) (vs : list (string * string)) :
  winreg.has_value n (winreg.delete_value n vs) = false.
Proof.
  unfold winreg.has_value, winreg.delete_value.
  apply bool_decide_eq_false_2. intros Hin.
  apply list_elem_of_fmap in Hin. destruct Hin as ([n' d] & Hn & Hin).
  apply list_elem_of_filter in Hin. destruct Hin as [Hne _].
  simpl in *. congruence.
Qed.

Lemma DeleteValue_Ok (key : HKEY) (n : string) (w w1 : World) :
  winreg.DeleteValue key n w = (Ok tt, w1) ->
  fs w1 = fs w /\ notify_calls w1 = notify_calls w /\ faults w1 = faults w /\
  winreg.has_value n (winreg.values w1 key) = false.
Proof.
  unfold winreg.DeleteValue. destruct (faults w _); [intros [=]|].
  destruct (winreg.has_value n (winreg.values w key)); [|intros [=]].
  intros [= <-]. cbn [fs notify_calls faults set_registry].
  repeat split; try reflexivity.
  unfold winreg.values at 1. cbn [registry set_registry].
  rewrite lookup_insert_eq. cbn [default]. apply has_value_delete_value.
Qed.

Lemma remove_Raise (p : string) (e : exn) (w w2 : World) :
  os.remove p w = (Raise e, w2) -> w2 = w.
Proof.
  unfold os.remove. destruct (faults w _); [intros [= _ <-]; reflexivity|].
  destruct (fs w !! p); intros [=]. congruence.
Qed.

(** C7: when the registry value is deleted and no file is found at the
    resolved path, the uninstaller reports success. *)
Theorem uninstall_missing_file_succeeds (self : FontManager)
  (font_name font_file font_type : string) (w w1 : World) (k : HKEY) :
  winreg.OpenKey w (uninstall_key font_type).1 (uninstall_key font_type).2 KEY_SET_VALUE
    = Ok k ->
  winreg.DeleteValue k font_name w = (Ok tt, w1) ->
  os.path_exists w (uninstall_target self font_file font_type) = false ->
  exists w',
    uninstall_font self font_name font_file font_type w
      = (Ok (true, font_type ++ "卸载成功"), w') /\
    winreg.has_value font_name (winreg.values w' k) = false /\
    fs w' = fs w.
Proof.
  intros Hopen Hdel Hmissing.
  rewrite uninstall_font_eq. cbn zeta. rewrite Hopen, Hdel.
  destruct (DeleteValue_Ok _ _ _ _ Hdel) as (Hfs & _ & _ & Hgone).
  assert (Hmissing1 : os.path_exists w1 (uninstall_target self font_file font_type) = false).
  { unfold os.path_exists in *. rewrite Hfs. exact Hmissing. }
  rewrite Hmissing1.
  eexists. split; [reflexivity|]. split; [exact Hgone | exact Hfs].
Qed.

(** C9: when the registry value is deleted and removing the file raises,
    the uninstaller reports failure, the registry value stays deleted and
    no font-change broadcast is attempted. *)
Theorem uninstall_not_atomic (self : FontManager)
  (font_name font_file font_type : string) (w w1 w2 : World) (k : HKEY) (e : exn) :
  winreg.OpenKey w (uninstall_key font_type).1 (uninstall_key font_type).2 KEY_SET_VALUE
    = Ok k ->
  winreg.DeleteValue k font_name w = (Ok tt, w1) ->
  os.path_exists w1 (uninstall_target self font_file font_type) = true ->
  os.remove (uninstall_target self font_file font_type) w1 = (Raise e, w2) ->
  exists msg,
    uninstall_font self font_name font_file font_type w = (Ok (false, msg), w1) /\
    winreg.has_value font_name (winreg.values w1 k) = false /\
    notify_calls w1 = notify_calls w.
Proof.
  intros Hopen Hdel Hpresent Hremove.
  rewrite uninstall_font_eq. cbn zeta. rewrite Hopen, Hdel, Hpresent, Hremove.
  destruct (DeleteValue_Ok _ _ _ _ Hdel) as (_ & Hnotify & _ & Hgone).
  rewrite (remove_Raise _ _ _ _ Hremove).
  exists (uninstall_failure font_type e).2.
  split; [|split; assumption].
  f_equal. f_equal. unfold uninstall_failure.
  destruct (class_of e); [destruct (Str.eqb font_type _)| | |]; reflexivity.
Qed.

(** ** The catalog *)

Section CatalogFacts.

Variable self : FontManager.
Variable w : World.

Lemma EnumValue_Ok key i nv :
  winreg.EnumValue w key i = Ok nv ->
  faults w (SysEnumValue key i) = None /\ winreg.values w key !! i = Some nv.
Proof.
  unfold winreg.EnumValue. destruct (faults w _); [discriminate|].
  destruct (winreg.values w key !! i); [|discriminate].
  intros [= ->]. split; reflexivity.
Qed.

Lemma enum_prefix_lookup key vs :
  forall base i nv,
    (forall j, j <= i -> faults w (SysEnumValue key (base + j)) = None) ->
    vs !! i = Some nv ->
    nv ∈ enum_prefix w key vs base.
Proof.
  induction vs as [|x vs IH]; intros base i nv Hok Hnv; [discriminate|].
  simpl. specialize (Hok 0 ltac:(lia)) as H0. rewrite Nat.add_0_r in H0. rewrite H0.
  destruct i as [|i]; simpl in Hnv.
  - injection Hnv as ->. left.
  - right. apply (IH (S base) i); [|exact Hnv].
    intros j Hj. replace (S base + j) with (base + S j) by lia. apply Hok. lia.
Qed.

Lemma enum_prefix_subseteq key vs :
  forall base nv, nv ∈ enum_prefix w key vs base -> nv ∈ vs.
Proof.
  induction vs as [|x vs IH]; intros base nv Hin; [exact Hin|].
  simpl in Hin. destruct (faults w _); [inversion Hin|].
  apply elem_of_cons in Hin. destruct Hin as [-> | Hin]; [left | right; eauto].
Qed.

Lemma enum_prefix_all key vs :
  forall base,
    (forall i, faults w (SysEnumValue key i) = None) ->
    enum_prefix w key vs base = vs.
Proof.
  induction vs as [|x vs IH]; intros base Hok; [reflexivity|].
  simpl. rewrite Hok. f_equal. apply IH. exact Hok.
Qed.

Lemma enumerated_hive_entries root sub_key i nv :
  enumerated w root sub_key i nv -> nv ∈ hive_entries w root sub_key.
Proof.
  intros (key & Hopen & Hbefore & Hi). unfold hive_entries. rewrite Hopen.
  apply EnumValue_Ok in Hi. destruct Hi as [Hfi Hnv].
  apply (enum_prefix_lookup key _ 0 i); [|exact Hnv].
  intros j Hj. simpl. destruct (decide (j = i)) as [-> | Hne]; [exact Hfi|].
  destruct (Hbefore j ltac:(lia)) as [x Hx]. apply EnumValue_Ok in Hx. tauto.
Qed.

Lemma hive_entries_subseteq root sub_key nv :
  nv ∈ hive_entries w root sub_key -> nv ∈ winreg.values w (root, sub_key).
Proof.
  unfold hive_entries.
  destruct (winreg.OpenKey w root sub_key KEY_READ) as [key|e|] eqn:Hopen;
    [| intros H; inversion H | intros H; inversion H].
  apply OpenKey_Ok in Hopen. destruct Hopen as [-> _].
  apply enum_prefix_subseteq.
Qed.

Lemma hive_entries_all root sub_key :
  faults w (SysOpenKey root sub_key KEY_READ) = None ->
  (forall i, faults w (SysEnumValue (root, sub_key) i) = None) ->
  is_Some (registry w !! (root, sub_key)) ->
  hive_entries w root sub_key = winreg.values w (root, sub_key).
Proof.
  intros Hopen Henum [vs Hvs]. unfold hive_entries, winreg.OpenKey.
  rewrite Hopen, Hvs. apply enum_prefix_all. exact Henum.
Qed.

Lemma get_installed_fonts_final :
  get_installed_fonts self w = Ok (sorted name (fonts (final_locals self w))).
Proof. apply get_installed_fonts_eq. Qed.

Lemma final_locals_inv : dedup_inv (final_locals self w).
Proof.
  unfold final_locals. apply scan_inv. apply scan_inv. apply dedup_inv_init.
Qed.

(** Every record of the catalog comes from a value of one of the two
    hives, resolved against that hive's directory, and its file exists. *)
Lemma final_locals_provenance r :
  r ∈ fonts (final_locals self w) ->
  os.path_exists w (path r) = true /\
  ((exists nv, nv ∈ hive_entries w HKEY_LOCAL_MACHINE SYSTEM_FONTS_REG_PATH /\
               r = record_of self (system_fonts_dir self) nv) \/
   (exists nv, nv ∈ hive_entries w HKEY_CURRENT_USER USER_FONTS_REG_PATH /\
               r = record_of self (user_fonts_dir self) nv)).
Proof.
  unfold final_locals. intros Hr.
  apply scan_provenance in Hr. destruct Hr as [Hr | (nv & Hin & Heq & Hex)].
  - apply scan_provenance in Hr. destruct Hr as [Hr | (nv & Hin & Heq & Hex)].
    + inversion Hr.
    + split; [exact Hex|]. left. eauto.
  - split; [exact Hex|]. right. eauto.
Qed.

Lemma final_locals_machine_complete nv :
  nv ∈ hive_entries w HKEY_LOCAL_MACHINE SYSTEM_FONTS_REG_PATH ->
  os.path_exists w (resolve (system_fonts_dir self) nv.2) = true ->
  (nv.1, Str.lower (resolve (system_fonts_dir self) nv.2))
    ∈ key_of <$> fonts (final_locals self w).
Proof.
  intros Hin Hex. apply final_locals_inv. unfold final_locals.
  apply scan_added_mono.
  apply (scan_complete self w (system_fonts_dir self) _ _ nv Hin Hex).
Qed.

Lemma final_locals_user_complete nv :
  nv ∈ hive_entries w HKEY_CURRENT_USER USER_FONTS_REG_PATH ->
  os.path_exists w (resolve (user_fonts_dir self) nv.2) = true ->
  (nv.1, Str.lower (resolve (user_fonts_dir self) nv.2))
    ∈ key_of <$> fonts (final_locals self w).
Proof.
  intros Hin Hex. apply final_locals_inv. unfold final_locals.
  apply (scan_complete self w (user_fonts_dir self) _ _ nv Hin Hex).
Qed.

End CatalogFacts.

Lemma filter_key_absent {A} (f : A -> string * string) (k : string * string) (l : list A) :
  k ∉ f <$> l -> filter (fun x => f x = k) l = [].
Proof.
  induction l as [|x l IH]; intros Hk; [reflexivity|].
  rewrite filter_cons. destruct (decide (f x = k)) as [Heq | Hne].
  - exfalso. apply Hk. rewrite fmap_cons, Heq. left.
  - apply IH. intros Hin. apply Hk. rewrite fmap_cons. right. exact Hin.
Qed.

Lemma filter_key_unique {A} (f : A -> string * string) (k : string * string) (l : list A) :
  NoDup (f <$> l) -> k ∈ f <$> l -> length (filter (fun x => f x = k) l) = 1.
Proof.
  induction l as [|x l IH]; intros Hnd Hk; [inversion Hk|].
  rewrite fmap_cons in Hnd, Hk. apply NoDup_cons in Hnd. destruct Hnd as [Hx Hnd].
  rewrite filter_cons. destruct (decide (f x = k)) as [Heq | Hne].
  - subst k. rewrite (filter_key_absent f (f x) l Hx). reflexivity.
  - apply elem_of_cons in Hk. destruct Hk as [Hk | Hk]; [congruence|].
    apply IH; assumption.
Qed.

(** C3: whatever the registries and the file system hold, no two records
    of the catalog have the same name and the same lowercased path; a font
    that both hives deliver under one name and one resolved path gives
    exactly one record. The lowercased path is the one [str.lower] gives,
    for every such function: the key is the key of the code. *)
Theorem catalog_keys_unique (self : FontManager) (w : World) :
  exists cat,
    get_installed_fonts self w = Ok cat /\
    NoDup (key_of <$> cat) /\
    forall i j n v_machine v_user,
      enumerated w HKEY_LOCAL_MACHINE SYSTEM_FONTS_REG_PATH i (n, v_machine) ->
      enumerated w HKEY_CURRENT_USER USER_FONTS_REG_PATH j (n, v_user) ->
      Str.lower (resolve (system_fonts_dir self) v_machine)
        = Str.lower (resolve (user_fonts_dir self) v_user) ->
      os.path_exists w (resolve (system_fonts_dir self) v_machine) = true ->
      os.path_exists w (resolve (user_fonts_dir self) v_user) = true ->
      length (filter
                (fun r => key_of r = (n, Str.lower (resolve (system_fonts_dir self) v_machine)))
                cat) = 1.
Proof.
  exists (sorted name (fonts (final_locals self w))).
  split; [apply get_installed_fonts_final|].
  assert (Hnd : NoDup (key_of <$> sorted name (fonts (final_locals self w)))).
  { rewrite sorted_Permutation. apply (final_locals_inv self w). }
  split; [exact Hnd|].
  intros i j n v_machine v_user Hm _ _ Hex _.
  apply filter_key_unique; [exact Hnd|].
  rewrite sorted_Permutation.
  apply enumerated_hive_entries in Hm.
  apply (final_locals_machine_complete self w (n, v_machine) Hm Hex).
Qed.

(** The scope of every record of the catalog is decided by its resolved
    path alone, whichever hive its value came from: it is the system scope
    when the lowercased path starts with the lowercased system font
    directory, and the user scope otherwise. *)
Theorem scope_follows_path (self : FontManager) (w : World) :
  exists cat,
    get_installed_fonts self w = Ok cat /\
    forall r, r ∈ cat ->
      (is_system self (path r) = true -> type r = SYSTEM_FONT) /\
      (is_system self (path r) = false -> type r = USER_FONT).
Proof.
  exists (sorted name (fonts (final_locals self w))).
  split; [apply get_installed_fonts_final|].
  intros r Hr. apply elem_of_sorted in Hr.
  apply final_locals_provenance in Hr.
  destruct Hr as [_ [(nv & _ & ->) | (nv & _ & ->)]];
    cbn [record_of path type]; unfold classify;
    split; intros ->; reflexivity.
Qed.

(** A record whose path lies under the system font directory is a system
    font, whichever hive its value came from. *)
Lemma under_system_dir_is_system (self : FontManager) (w : World)
  (cat : list FontRecord) (r : FontRecord) :
  get_installed_fonts self w = Ok cat ->
  r ∈ cat ->
  lies_under (system_fonts_dir self) (path r) = true ->
  type r = SYSTEM_FONT.
Proof.
  intros Hget Hr Hunder.
  destruct (scope_follows_path self w) as (cat' & Hget' & Hall).
  rewrite Hget in Hget'. injection Hget' as <-.
  apply (Hall r Hr). unfold lies_under in Hunder.
  apply andb_true_iff in Hunder. exact (proj1 Hunder).
Qed.

(** C6 fails for a path that merely starts with the letters of the system
    font directory: a font of the user hive stored in C:\Windows\FontsOld,
    which does not lie under C:\Windows\Fonts, is classified as a system
    font. *)
Lemma sibling_directory_classified_system :
  system_fonts_dir Demo.fm = "C:\Windows\Fonts" /\
  get_installed_fonts Demo.fm Demo.sibling =
    Ok [ {| name := "Old (TrueType)"; file := "C:\Windows\FontsOld\old.ttf";
            path := "C:\Windows\FontsOld\old.ttf"; type := SYSTEM_FONT |} ] /\
  lies_under (system_fonts_dir Demo.fm) "C:\Windows\FontsOld\old.ttf" = false.
Proof.
  split; [reflexivity|]. split.
  - rewrite get_installed_fonts_final. unfold final_locals.
    replace (hive_entries Demo.sibling HKEY_LOCAL_MACHINE SYSTEM_FONTS_REG_PATH)
      with (@nil (string * string)) by (vm_compute; reflexivity).
    replace (hive_entries Demo.sibling HKEY_CURRENT_USER USER_FONTS_REG_PATH)
      with [("Old (TrueType)", "C:\Windows\FontsOld\old.ttf")] by (vm_compute; reflexivity).
    cbn [scan foldl]. unfold visit.
    assert (Hrec : record_of Demo.fm (user_fonts_dir Demo.fm)
                     ("Old (TrueType)", "C:\Windows\FontsOld\old.ttf")
                   = {| name := "Old (TrueType)"; file := "C:\Windows\FontsOld\old.ttf";
                        path := "C:\Windows\FontsOld\old.ttf"; type := SYSTEM_FONT |}).
    { unfold record_of, classify, is_system. cbn [fst snd].
      replace (resolve (user_fonts_dir Demo.fm) "C:\Windows\FontsOld\old.ttf")
        with "C:\Windows\FontsOld\old.ttf" by (vm_compute; reflexivity).
      rewrite !Str.lower_ascii_string by (vm_compute; reflexivity).
      vm_compute. reflexivity. }
    rewrite Hrec. cbn [path fonts added_fonts].
    replace (os.path_exists Demo.sibling "C:\Windows\FontsOld\old.ttf")
      with true by (vm_compute; reflexivity).
    rewrite bool_decide_eq_true_2 by set_solver.
    reflexivity.
  - unfold lies_under. rewrite !Str.lower_ascii_string by (vm_compute; reflexivity).
    vm_compute. reflexivity.
Qed.

(** C8: the enumerator always returns a catalog. Whatever happens to the
    other hive, every value a hive delivers whose file exists is
    represented in the catalog by a record of that name and path, under
    the deduplication key of the code (the name and [str.lower] of the
    path, for every such function). *)
Theorem enumerator_never_fails (self : FontManager) (w : World) :
  exists cat,
    get_installed_fonts self w = Ok cat /\
    (forall i nv,
       enumerated w HKEY_LOCAL_MACHINE SYSTEM_FONTS_REG_PATH i nv ->
       os.path_exists w (resolve (system_fonts_dir self) nv.2) = true ->
       exists r, r ∈ cat /\
         key_of r = (nv.1, Str.lower (resolve (system_fonts_dir self) nv.2))) /\
    (forall i nv,
       enumerated w HKEY_CURRENT_USER USER_FONTS_REG_PATH i nv ->
       os.path_exists w (resolve (user_fonts_dir self) nv.2) = true ->
       exists r, r ∈ cat /\
         key_of r = (nv.1, Str.lower (resolve (user_fonts_dir self) nv.2))).
Proof.
  exists (sorted name (fonts (final_locals self w))).
  split; [apply get_installed_fonts_final|].
  split; intros i nv Hen Hex; apply enumerated_hive_entries in Hen.
  - pose proof (final_locals_machine_complete self w nv Hen Hex) as Hk.
    apply list_elem_of_fmap in Hk. destruct Hk as (r & Hkey & Hr).
    exists r. split; [apply elem_of_sorted; exact Hr | symmetry; exact Hkey].
  - pose proof (final_locals_user_complete self w nv Hen Hex) as Hk.
    apply list_elem_of_fmap in Hk. destruct Hk as (r & Hkey & Hr).
    exists r. split; [apply elem_of_sorted; exact Hr | symmetry; exact Hkey].
Qed.

(** ** The round trip: install, list, uninstall, list *)

Lemma set_value_split (n d : string) (vs : list (string * string)) :
  exists a b, winreg.set_value n d vs = (a ++ (n, d) :: b)%list /\ n ∉ a.*1.
Proof.
  induction vs as [|[n0 d0] vs IH]; simpl.
  - exists [], []. split; [reflexivity | intros H; inversion H].
  - case_bool_decide as Hn.
    + subst n0. exists [], vs. split; [reflexivity | intros H; inversion H].
    + destruct IH as (a & b & Heq & Hna). exists ((n0, d0) :: a), b.
      split; [rewrite Heq; reflexivity|].
      rewrite fmap_cons. intros Hin. apply elem_of_cons in Hin.
      destruct Hin as [Hin | Hin]; [simpl in Hin; congruence | contradiction].
Qed.

Lemma has_value_set_value (n d : string) (vs : list (string * string)) :
  winreg.has_value n (winreg.set_value n d vs) = true.
Proof.
  unfold winreg.has_value. apply bool_decide_eq_true_2.
  apply list_elem_of_fmap. exists (n, d). split; [reflexivity | apply set_value_elem].
Qed.

Lemma resolve_basename (dir p : string) :
  resolve dir (ntpath.basename p) = ntpath.join dir [ntpath.basename p].
Proof. unfold resolve. rewrite ntpath_facts.isabs_basename. reflexivity. Qed.

Section RoundTrip.

Variable self : FontManager.
Variables (font_path : string) (w w1 : World) (msg : string).

Hypothesis Hext : install_ext font_path = ".ttf".
Hypothesis Hinstall : install_font self font_path "user" w = (Ok (true, msg), w1).

Lemma round_trip_installed :
  os.path_exists w (user_target self font_path) = false /\
  (exists data, fs w1 = <[user_target self font_path := data]> (fs w)) /\
  is_Some (registry w !! user_key) /\
  registry w1 = <[user_key := winreg.set_value (truetype_name font_path)
                                (ntpath.basename font_path)
                                (winreg.values w user_key)]> (registry w) /\
  faults w1 = faults w /\
  faults w (SysOpenKey HKEY_CURRENT_USER USER_FONTS_REG_PATH KEY_SET_VALUE) = None.
Proof.
  pose proof (install_font_success self _ _ _ _ _ Hinstall) as H.
  cbn zeta in H. rewrite Hext in H.
  change (install_key "user") with user_key in H.
  change (install_target self font_path "user") with (user_target self font_path) in H.
  change (Str.eqb ".ttf" ".ttf") with true in H. cbn iota in H.
  destruct H as (_ & Habs & (data & _ & Hfs) & Hkey & Hreg & Hfaults & Hopen & _).
  split; [exact Habs|]. split; [exists data; exact Hfs|]. split; [exact Hkey|].
  split; [exact Hreg|]. split; [exact Hfaults | exact Hopen].
Qed.

Lemma round_trip_record_fields :
  is_system self (user_target self font_path) = false ->
  name (installed_record self font_path) = truetype_name font_path /\
  file (installed_record self font_path) = ntpath.basename font_path /\
  path (installed_record self font_path) = user_target self font_path /\
  type (installed_record self font_path) = USER_FONT.
Proof.
  intros Hscope. unfold installed_record, record_of. cbn [name file path type fst snd].
  rewrite resolve_basename. fold (user_target self font_path).
  unfold classify. rewrite Hscope. repeat split; reflexivity.
Qed.

Lemma round_trip_listed :
  round_trip_unhindered w (truetype_name font_path) (user_target self font_path) ->
  not_shadowed self w (truetype_name font_path) (user_target self font_path) ->
  installed_record self font_path ∈ fonts (final_locals self w1).
Proof.
  intros (Hopen_r & Henum & _ & _) Hshadow.
  destruct round_trip_installed as (_ & (data & Hfs) & Hkey & Hreg & Hfaults & _).
  assert (Hres : resolve (user_fonts_dir self) (ntpath.basename font_path)
                 = user_target self font_path) by apply resolve_basename.
  assert (Hlook : registry w1 !! user_key
                  = Some (winreg.set_value (truetype_name font_path)
                            (ntpath.basename font_path) (winreg.values w user_key))).
  { rewrite Hreg. apply lookup_insert_eq. }
  assert (Hentries : hive_entries w1 HKEY_CURRENT_USER USER_FONTS_REG_PATH
                     = winreg.set_value (truetype_name font_path)
                         (ntpath.basename font_path) (winreg.values w user_key)).
  { rewrite hive_entries_all.
    - unfold winreg.values at 1. fold user_key. rewrite Hlook. reflexivity.
    - rewrite Hfaults. exact Hopen_r.
    - intros i. rewrite Hfaults. apply Henum.
    - fold user_key. rewrite Hlook. eauto. }
  unfold final_locals, installed_record. rewrite Hentries.
  destruct (set_value_split (truetype_name font_path) (ntpath.basename font_path)
              (winreg.values w user_key)) as (a & b & -> & Hna).
  apply scan_first.
  - intros Hin. apply scan_added_provenance in Hin.
    destruct Hin as [Hin | ([n v] & Hnv & Hk & _)]; [set_solver|].
    apply hive_entries_subseteq in Hnv. fold machine_key in Hnv.
    assert (Hvalm : winreg.values w1 machine_key = winreg.values w machine_key).
    { unfold winreg.values. rewrite Hreg, lookup_insert_ne; [reflexivity | discriminate]. }
    rewrite Hvalm in Hnv.
    unfold key_of, record_of in Hk. cbn [name path fst snd] in Hk.
    rewrite Hres in Hk. injection Hk as Hn Hp. subst n.
    apply (Hshadow v Hnv). symmetry. exact Hp.
  - intros [n v] Hin Hk. apply Hna.
    unfold key_of, record_of in Hk. cbn [name path fst snd] in Hk.
    injection Hk as Hn _. subst n.
    apply list_elem_of_fmap. exists (truetype_name font_path, v).
    split; [reflexivity | exact Hin].
  - cbn [snd]. rewrite Hres. apply (path_exists_true _ _ data).
    rewrite Hfs. apply lookup_insert_eq.
Qed.

Lemma round_trip_uninstalled :
  round_trip_unhindered w (truetype_name font_path) (user_target self font_path) ->
  exists w2,
    uninstall_font self (truetype_name font_path) (ntpath.basename font_path) USER_FONT w1
      = (Ok (true, USER_FONT ++ "卸载成功"), w2) /\
    os.path_exists w2 (user_target self font_path) = false.
Proof.
  intros (_ & _ & Hdel & Hrm).
  destruct round_trip_installed as (_ & (data & Hfs) & Hkey & Hreg & Hfaults & Hopen).
  rewrite uninstall_font_eq. cbn zeta.
  change (uninstall_key USER_FONT) with user_key.
  change (uninstall_target self (ntpath.basename font_path) USER_FONT)
    with (user_target self font_path).
  unfold winreg.OpenKey. cbn [fst snd user_key].
  rewrite Hfaults, Hopen. fold user_key.
  assert (Hlook : registry w1 !! user_key
                  = Some (winreg.set_value (truetype_name font_path)
                            (ntpath.basename font_path) (winreg.values w user_key))).
  { rewrite Hreg. apply lookup_insert_eq. }
  rewrite Hlook.
  unfold winreg.DeleteValue. rewrite Hfaults, Hdel.
  assert (Hval1 : winreg.values w1 user_key
                  = winreg.set_value (truetype_name font_path)
                      (ntpath.basename font_path) (winreg.values w user_key)).
  { unfold winreg.values at 1. rewrite Hlook. reflexivity. }
  rewrite Hval1, has_value_set_value.
  assert (Hpresent : forall reg,
            os.path_exists (set_registry reg w1) (user_target self font_path) = true).
  { intros reg. apply (path_exists_true _ _ data). cbn [fs set_registry].
    rewrite Hfs. apply lookup_insert_eq. }
  rewrite Hpresent.
  unfold os.remove. cbn [faults fs set_registry]. rewrite Hfaults, Hrm.
  rewrite Hfs, lookup_insert_eq.
  eexists. split; [reflexivity|].
  apply path_exists_false. cbn [fs set_notify_calls set_fs]. apply lookup_delete_eq.
Qed.

End RoundTrip.

(** C2, as the code has it: when installing X.ttf for the user succeeds,
    the environment does not hinder reading the user hive, deleting the
    value and removing the file, the target path does not start with the
    system font directory, and no value of the machine hive has the same
    name and resolves to the same file, then the catalog has a record named
    X followed by " (TrueType)", with file "X.ttf", of user scope;
    uninstalling it with that name, file and scope succeeds; afterwards the
    record is not in the catalog and the file is not in the user font
    directory. Paths are compared as the enumerator compares them, through
    [str.lower], whatever that function does to letters outside ASCII. *)
Theorem user_install_round_trip (self : FontManager) (font_path : string)
  (w w1 : World) (msg : string) :
  install_ext font_path = ".ttf" ->
  install_font self font_path "user" w = (Ok (true, msg), w1) ->
  round_trip_unhindered w (truetype_name font_path) (user_target self font_path) ->
  is_system self (user_target self font_path) = false ->
  not_shadowed self w (truetype_name font_path) (user_target self font_path) ->
  exists cat1 r,
    get_installed_fonts self w1 = Ok cat1 /\
    r ∈ cat1 /\
    name r = truetype_name font_path /\
    file r = ntpath.basename font_path /\
    path r = user_target self font_path /\
    type r = USER_FONT /\
    exists msg2 w2,
      uninstall_font self (name r) (file r) (type r) w1 = (Ok (true, msg2), w2) /\
      os.path_exists w2 (user_target self font_path) = false /\
      exists cat2, get_installed_fonts self w2 = Ok cat2 /\ r ∉ cat2.
Proof.
  intros Hext Hinstall Henv Hscope Hshadow.
  pose proof (round_trip_record_fields self font_path Hscope) as (Hn & Hf & Hp & Ht).
  pose proof (round_trip_listed self font_path w w1 msg Hext Hinstall Henv Hshadow) as Hin.
  destruct (round_trip_uninstalled self font_path w w1 msg Hext Hinstall Henv)
    as (w2 & Hun & Hgone).
  exists (sorted name (fonts (final_locals self w1))), (installed_record self font_path).
  split; [apply get_installed_fonts_final|].
  split; [apply elem_of_sorted; exact Hin|].
  split; [exact Hn|]. split; [exact Hf|]. split; [exact Hp|]. split; [exact Ht|].
  exists (USER_FONT ++ "卸载成功"), w2.
  rewrite Hn, Hf, Ht. split; [exact Hun|]. split; [exact Hgone|].
  eexists. split; [apply get_installed_fonts_final|].
  intros Hin2. apply elem_of_sorted in Hin2.
  apply final_locals_provenance in Hin2. destruct Hin2 as [Hex _].
  rewrite Hp in Hex. congruence.
Qed.

(** * Further properties *)

(** ** The order of the catalog *)

Lemma string_le_total (a b : string) : String.leb a b = false -> String.le b a.
Proof.
  intros H. destruct (String.le_total a b) as [Hab | Hba]; [|exact Hba].
  unfold String.le in Hab. rewrite H in Hab. contradiction.
Qed.

Lemma string_leb_refl (a : string) : String.leb a a = true.
Proof.
  pose proof (reflexivity (R := String.le) a) as H. unfold String.le in H.
  destruct (String.leb a a); [reflexivity | contradiction].
Qed.

Lemma insert_by_sorted {A} (key : A -> string) (x : A) (l : list A) :
  StronglySorted String.le (key <$> l) ->
  StronglySorted String.le (key <$> insert_by key x l).
Proof.
  induction l as [|y r IH]; intros Hs; simpl.
  - repeat constructor.
  - rewrite fmap_cons in Hs. apply StronglySorted_inv in Hs. destruct Hs as [Hr Hy].
    destruct (String.leb (key x) (key y)) eqn:Hxy.
    + rewrite !fmap_cons. constructor; [constructor; assumption|].
      assert (Hle : String.le (key x) (key y)) by (unfold String.le; rewrite Hxy; exact I).
      constructor; [exact Hle|].
      eapply Forall_impl; [exact Hy|]. intros z Hz. simpl in Hz.
      transitivity (key y); assumption.
    + rewrite fmap_cons. constructor; [apply IH; exact Hr|].
      rewrite insert_by_Permutation, fmap_cons. constructor; [|exact Hy].
      apply string_le_total. exact Hxy.
Qed.

Lemma sorted_sorted {A} (key : A -> string) (l : list A) :
  StronglySorted String.le (key <$> sorted key l).
Proof.
  induction l as [|x l IH]; simpl; [constructor|].
  apply insert_by_sorted. exact IH.
Qed.

Lemma insert_by_filter {A} (key : A -> string) (n : string) (x : A) (l : list A) :
  filter (fun y => key y = n) (insert_by key x l)
  = filter (fun y => key y = n) (x :: l).
Proof.
  induction l as [|y r IH]; simpl; [reflexivity|].
  destruct (String.leb (key x) (key y)) eqn:Hxy; [reflexivity|].
  rewrite (filter_cons _ y), IH, !filter_cons.
  destruct (decide (key x = n)) as [Hx|Hx]; [|reflexivity].
  destruct (decide (key y = n)) as [Hy|Hy]; [|reflexivity].
  rewrite Hx, Hy, string_leb_refl in Hxy. discriminate.
Qed.

Lemma sorted_filter {A} (key : A -> string) (n : string) (l : list A) :
  filter (fun y => key y = n) (sorted key l) = filter (fun y => key y = n) l.
Proof.
  induction l as [|x l IH]; simpl; [reflexivity|].
  rewrite insert_by_filter, !filter_cons, IH. reflexivity.
Qed.

(** The catalog is in ascending order of the names, bytewise. *)
Theorem catalog_sorted_by_name (self : FontManager) (w : World) :
  exists cat,
    get_installed_fonts self w = Ok cat /\
    StronglySorted String.le (name <$> cat).
Proof.
  exists (sorted name (fonts (final_locals self w))).
  split; [apply get_installed_fonts_final | apply sorted_sorted].
Qed.

Section ScanOrder.

Variable self : FontManager.
Variable w : World.

(** A scan appends the records of some of the values it visits, in the
    order of the visit. *)
Lemma scan_appends fonts_dir es :
  forall l, exists vs,
    vs `sublist_of` es /\
    fonts (scan self w fonts_dir es l)
    = (fonts l ++ (record_of self fonts_dir <$> vs))%list.
Proof.
  induction es as [|nv es IH]; intros l.
  - exists []. split; [constructor | symmetry; apply app_nil_r].
  - simpl. destruct (visit_cases self w fonts_dir l nv) as [[Hv _] | [Hv _]]; rewrite Hv.
    + destruct (IH l) as (vs & Hsub & Heq). exists vs.
      split; [apply sublist_cons; exact Hsub | exact Heq].
    + destruct (IH (mk_Locals (fonts l ++ [record_of self fonts_dir nv])
                      ({[key_of (record_of self fonts_dir nv)]} ∪ added_fonts l)))
        as (vs & Hsub & Heq).
      exists (nv :: vs). simpl in Heq.
      split; [apply sublist_skip; exact Hsub|].
      rewrite Heq, <- app_assoc. reflexivity.
Qed.

Lemma enum_prefix_sublist key vs :
  forall base, enum_prefix w key vs base `sublist_of` vs.
Proof.
  induction vs as [|x vs IH]; intros base; simpl; [constructor|].
  destruct (faults w _); [apply sublist_nil_l | apply sublist_skip, IH].
Qed.

Lemma hive_entries_sublist root sub_key :
  hive_entries w root sub_key `sublist_of` winreg.values w (root, sub_key).
Proof.
  unfold hive_entries.
  destruct (winreg.OpenKey w root sub_key KEY_READ) as [key|e|] eqn:Hopen;
    [| apply sublist_nil_l | apply sublist_nil_l].
  apply OpenKey_Ok in Hopen. destruct Hopen as [-> _].
  apply enum_prefix_sublist.
Qed.

End ScanOrder.

(** The sort is stable and the machine hive is read first. The catalog
    holds the records of some values of the machine hive and of some values
    of the user hive; among the records of one name, those of the machine
    hive come first, in the order of the values in the machine hive, and
    those of the user hive follow, in the order of the values in the user
    hive. *)
Theorem catalog_same_name_machine_first (self : FontManager) (w : World) :
  exists cat from_machine from_user,
    get_installed_fonts self w = Ok cat /\
    from_machine `sublist_of` winreg.values w machine_key /\
    from_user `sublist_of` winreg.values w user_key /\
    cat ≡ₚ ((record_of self (system_fonts_dir self) <$> from_machine)
            ++ (record_of self (user_fonts_dir self) <$> from_user))%list /\
    forall n,
      filter (fun r => name r = n) cat
      = ((record_of self (system_fonts_dir self)
            <$> filter (fun nv => nv.1 = n) from_machine)
         ++ (record_of self (user_fonts_dir self)
               <$> filter (fun nv => nv.1 = n) from_user))%list.
Proof.
  destruct (scan_appends self w (system_fonts_dir self)
              (hive_entries w HKEY_LOCAL_MACHINE SYSTEM_FONTS_REG_PATH) (mk_Locals [] ∅))
    as (ms & Hm & Hms).
  destruct (scan_appends self w (user_fonts_dir self)
              (hive_entries w HKEY_CURRENT_USER USER_FONTS_REG_PATH)
              (scan self w (system_fonts_dir self)
                 (hive_entries w HKEY_LOCAL_MACHINE SYSTEM_FONTS_REG_PATH)
                 (mk_Locals [] ∅)))
    as (us & Hu & Hus).
  simpl in Hms. rewrite Hms in Hus.
  exists (sorted name (fonts (final_locals self w))), ms, us.
  split; [apply get_installed_fonts_final|].
  split; [etransitivity; [exact Hm | apply hive_entries_sublist]|].
  split; [etransitivity; [exact Hu | apply hive_entries_sublist]|].
  unfold final_locals. rewrite Hus.
  split; [apply sorted_Permutation|].
  intros n. rewrite sorted_filter, filter_app.
  assert (Hfil : forall dir (vs : list (string * string)),
            filter (fun r => name r = n) (record_of self dir <$> vs)
            = record_of self dir <$> filter (fun nv => nv.1 = n) vs).
  { intros dir vs. induction vs as [|nv vs IH]; [reflexivity|].
    rewrite fmap_cons, !filter_cons. cbn [record_of name].
    destruct (decide (nv.1 = n)); [rewrite fmap_cons, IH | rewrite IH]; reflexivity. }
  rewrite !Hfil. reflexivity.
Qed.

(** ** Where the records of the catalog come from *)

(** Every record stands for a file that exists; its name and file are a
    value of one of the two hives, and its path is that value resolved
    against the hive's font directory. *)
Theorem catalog_records_exist (self : FontManager) (w : World) :
  exists cat,
    get_installed_fonts self w = Ok cat /\
    forall r, r ∈ cat ->
      os.path_exists w (path r) = true /\
      (((name r, file r) ∈ winreg.values w machine_key /\
        path r = resolve (system_fonts_dir self) (file r)) \/
       ((name r, file r) ∈ winreg.values w user_key /\
        path r = resolve (user_fonts_dir self) (file r))).
Proof.
  exists (sorted name (fonts (final_locals self w))).
  split; [apply get_installed_fonts_final|].
  intros r Hr. apply elem_of_sorted in Hr.
  apply final_locals_provenance in Hr.
  destruct Hr as [Hex [([n v] & Hin & ->) | ([n v] & Hin & ->)]];
    (split; [exact Hex|]); apply hive_entries_subseteq in Hin; [left | right];
    split; solve [exact Hin | reflexivity].
Qed.

Lemma NoDup_fmap_same {A B} (f : A -> B) (l : list A) (x y : A) :
  NoDup (f <$> l) -> x ∈ l -> y ∈ l -> f x = f y -> x = y.
Proof.
  induction l as [|z l IH]; intros Hnd Hx Hy Hf; [inversion Hx|].
  rewrite fmap_cons in Hnd. apply NoDup_cons in Hnd. destruct Hnd as [Hz Hnd].
  apply elem_of_cons in Hx. apply elem_of_cons in Hy.
  destruct Hx as [-> | Hx], Hy as [-> | Hy].
  - reflexivity.
  - exfalso. apply Hz. rewrite Hf. apply list_elem_of_fmap. eauto.
  - exfalso. apply Hz. rewrite <- Hf. apply list_elem_of_fmap. eauto.
  - apply IH; assumption.
Qed.

(** When the machine hive delivers a font, the record of that name and
    path is the machine hive's: a value of the user hive for the same name
    and path is not listed. Paths are the same when [str.lower] makes them
    equal, for every such function. *)
Theorem machine_hive_wins (self : FontManager) (w : World) (i : nat) (n v : string) :
  enumerated w HKEY_LOCAL_MACHINE SYSTEM_FONTS_REG_PATH i (n, v) ->
  os.path_exists w (resolve (system_fonts_dir self) v) = true ->
  exists cat,
    get_installed_fonts self w = Ok cat /\
    forall r, r ∈ cat ->
      key_of r = (n, Str.lower (resolve (system_fonts_dir self) v)) ->
      exists v', (n, v') ∈ winreg.values w machine_key /\
                 r = record_of self (system_fonts_dir self) (n, v').
Proof.
  intros Hen Hex. apply enumerated_hive_entries in Hen.
  exists (sorted name (fonts (final_locals self w))).
  split; [apply get_installed_fonts_final|].
  intros r Hr Hkey. apply elem_of_sorted in Hr.
  set (l1 := scan self w (system_fonts_dir self)
               (hive_entries w HKEY_LOCAL_MACHINE SYSTEM_FONTS_REG_PATH) (mk_Locals [] ∅)).
  assert (Hinv1 : dedup_inv l1) by (apply scan_inv, dedup_inv_init).
  pose proof (scan_complete self w (system_fonts_dir self) _ (mk_Locals [] ∅) (n, v) Hen Hex)
    as Hk.
  fold l1 in Hk. apply Hinv1 in Hk.
  apply list_elem_of_fmap in Hk. destruct Hk as (r1 & Hkey1 & Hr1).
  assert (Hr1' : r1 ∈ fonts (final_locals self w)) by (apply scan_mono; exact Hr1).
  assert (r = r1) as ->.
  { apply (NoDup_fmap_same key_of (fonts (final_locals self w))); try assumption.
    - apply (final_locals_inv self w).
    - rewrite Hkey. exact Hkey1. }
  apply scan_provenance in Hr1. destruct Hr1 as [Hr1 | ([n' v'] & Hin & Heq & _)].
  - inversion Hr1.
  - subst r1. cbn [key_of record_of name path fst snd] in Hkey1.
    injection Hkey1 as Hn _. subst n'.
    exists v'. split; [apply hive_entries_subseteq in Hin; exact Hin | reflexivity].
Qed.

Lemma path_exists_insert (w w' : World) (p t d data : string) :
  fs w !! p = Some data -> fs w' = <[t := d]> (fs w) -> os.path_exists w' p = true.
Proof.
  intros Hp Hfs. unfold os.path_exists. rewrite Hfs. apply bool_decide_eq_true_2.
  rewrite lookup_insert. case_decide; eauto.
Qed.

Lemma install_failure_false (install_type : string) (e : exn) :
  exists msg, install_failure install_type e = (false, msg).
Proof.
  unfold install_failure. destruct (class_of e); [destruct (Str.eqb _ _)| | |]; eauto.
Qed.

Lemma uninstall_failure_false (font_type : string) (e : exn) :
  exists msg, uninstall_failure font_type e = (false, msg).
Proof.
  unfold uninstall_failure. destruct (class_of e); [destruct (Str.eqb _ _)| | |]; eauto.
Qed.

Lemma install_reg_name_annotation (font_path : string) :
  install_reg_name font_path
  = (ntpath.splitext (ntpath.basename font_path)).1
    ++ (if Str.eqb (install_ext font_path) ".ttf" then " (TrueType)"
        else if Str.eqb (install_ext font_path) ".otf" then " (OpenType)" else "").
Proof.
  unfold install_reg_name. cbn zeta.
  destruct (Str.eqb (install_ext font_path) ".ttf"); [reflexivity|].
  destruct (Str.eqb (install_ext font_path) ".otf"); [reflexivity|].
  symmetry. apply append_empty_r.
Qed.

(** A successful install copies the content of the source to the target,
    leaves every other file and every other registry key as they were,
    stores a value that the enumerator resolves to the copied file, and
    attempts one broadcast. *)
Theorem install_success_effects (self : FontManager) (font_path install_type : string)
  (w : World) (msg : string) (w' : World) :
  install_font self font_path install_type w = (Ok (true, msg), w') ->
  let target := install_target self font_path install_type in
  is_Some (fs w !! font_path) /\
  fs w' !! target = fs w !! font_path /\
  (forall q, q <> target -> fs w' !! q = fs w !! q) /\
  (forall k, k <> install_key install_type -> registry w' !! k = registry w !! k) /\
  (install_reg_name font_path, ntpath.basename font_path)
    ∈ winreg.values w' (install_key install_type) /\
  resolve (install_dir self install_type) (ntpath.basename font_path) = target /\
  notify_calls w' = S (notify_calls w).
Proof.
  intros H target. apply install_font_success in H. cbn zeta in H.
  destruct H as (_ & _ & (data & Hsrc & Hfs) & _ & Hreg & _ & _ & Hn & _).
  fold target in Hfs.
  split; [eauto|].
  split; [rewrite Hfs, Hsrc; apply lookup_insert_eq|].
  split; [intros q Hq; rewrite Hfs; apply lookup_insert_ne; congruence|].
  split; [intros k Hk; rewrite Hreg; apply lookup_insert_ne; congruence|].
  split.
  { unfold winreg.values at 1. rewrite Hreg, lookup_insert_eq. cbn [default].
    rewrite install_reg_name_annotation. apply set_value_elem. }
  split; [apply resolve_basename | exact Hn].
Qed.

(** Installing the same file into the same scope a second time is
    refused as already installed and changes nothing. *)
Theorem install_twice_refused (self : FontManager) (font_path install_type : string)
  (w : World) (msg : string) (w' : World) :
  install_font self font_path install_type w = (Ok (true, msg), w') ->
  install_font self font_path install_type w'
  = (Ok (false, MSG_ALREADY_INSTALLED install_type), w').
Proof.
  intros H. pose proof (install_font_success self _ _ _ _ _ H) as Hs. cbn zeta in Hs.
  destruct Hs as (Hext & _ & (data & Hsrc & Hfs) & _).
  apply install_font_target_present.
  - exact (path_exists_insert _ _ _ _ _ _ Hsrc Hfs).
  - exact Hext.
  - apply (path_exists_true _ _ data). rewrite Hfs. apply lookup_insert_eq.
Qed.

(** When the file is copied and the registry key then cannot be opened,
    the install fails with the message of the exception, the copied file
    stays in the font directory without a registry value, nothing is
    broadcast, and a new attempt is refused as already installed. *)
Theorem install_registry_failure_leaves_orphan (self : FontManager)
  (font_path install_type : string) (w : World) (e : exn) :
  os.path_exists w font_path = true ->
  install_ext font_path ∈ [".ttf"; ".otf"; ".ttc"] ->
  os.path_exists w (install_target self font_path install_type) = false ->
  faults w (SysCopy2 font_path (install_target self font_path install_type)) = None ->
  winreg.OpenKey w (install_key install_type).1 (install_key install_type).2 KEY_SET_VALUE
    = Raise e ->
  exists w1,
    install_font self font_path install_type w = (Ok (install_failure install_type e), w1) /\
    fs w1 !! install_target self font_path install_type = fs w !! font_path /\
    registry w1 = registry w /\
    notify_calls w1 = notify_calls w /\
    install_font self font_path install_type w1
    = (Ok (false, MSG_ALREADY_INSTALLED install_type), w1).
Proof.
  intros Hsrc Hext Htgt Hcopy Hopen.
  rewrite install_font_run by assumption. cbn zeta.
  unfold shutil.copy2. rewrite Hcopy.
  destruct (fs w !! font_path) as [data|] eqn:Hdata.
  2:{ unfold os.path_exists in Hsrc. rewrite Hdata in Hsrc.
      apply bool_decide_eq_true_1 in Hsrc. destruct Hsrc as [x Hx]. discriminate. }
  set (w1 := set_fs (<[install_target self font_path install_type := data]> (fs w)) w).
  assert (Hopen1 : winreg.OpenKey w1 (install_key install_type).1
                     (install_key install_type).2 KEY_SET_VALUE = Raise e) by exact Hopen.
  rewrite Hopen1. exists w1.
  split; [reflexivity|].
  split; [apply lookup_insert_eq|].
  split; [reflexivity|]. split; [reflexivity|].
  apply install_font_target_present.
  - exact (path_exists_insert w w1 _ _ _ _ Hdata eq_refl).
  - exact Hext.
  - apply (path_exists_true _ _ data). apply lookup_insert_eq.
Qed.

Lemma install_font_outcome (self : FontManager) (font_path install_type : string)
  (w : World) :
  exists ok msg w',
    install_font self font_path install_type w = (Ok (ok, msg), w') /\
    notify_calls w' = notify_calls w + (if ok then 1 else 0) /\
    (ok = false ->
     msg = MSG_FILE_NOT_FOUND \/ msg = MSG_UNSUPPORTED_FORMAT \/
     msg = MSG_ALREADY_INSTALLED install_type \/
     exists e, install_failure install_type e = (false, msg)).
Proof.
  destruct (os.path_exists w font_path) eqn:Hsrc.
  2:{ exists false, MSG_FILE_NOT_FOUND, w.
      split; [apply install_font_missing_source; exact Hsrc|].
      split; [lia | auto]. }
  destruct (decide (install_ext font_path ∈ [".ttf"; ".otf"; ".ttc"])) as [Hext | Hext].
  2:{ exists false, MSG_UNSUPPORTED_FORMAT, w.
      split; [apply install_font_bad_extension; assumption|].
      split; [lia | auto]. }
  destruct (os.path_exists w (install_target self font_path install_type)) eqn:Htgt.
  { exists false, (MSG_ALREADY_INSTALLED install_type), w.
    split; [apply install_font_target_present; assumption|].
    split; [lia | auto]. }
  rewrite install_font_run by assumption. cbn zeta.
  unfold shutil.copy2.
  destruct (faults w (SysCopy2 _ _)) as [e|].
  { destruct (install_failure_false install_type e) as [m Hm]. exists false, m, w.
    rewrite Hm. split; [reflexivity|]. split; [lia|]. intros _. do 3 right. eauto. }
  destruct (fs w !! font_path) as [data|].
  2:{ match goal with |- context [install_failure _ ?e] =>
        destruct (install_failure_false install_type e) as [m Hm]; exists false, m, w;
        rewrite Hm; split; [reflexivity|]; split; [lia|]; intros _; do 3 right; eauto end. }
  match goal with |- context [winreg.OpenKey ?x _ _ _] => set (w1 := x) end.
  destruct (winreg.OpenKey w1 _ _ _) as [k|e|] eqn:Hopen.
  - unfold winreg.SetValueEx. destruct (faults w1 (SysSetValueEx _ _)) as [e|].
    + destruct (install_failure_false install_type e) as [m Hm]. exists false, m, w1.
      rewrite Hm. split; [reflexivity|]. split; [simpl; lia|]. intros _. do 3 right. eauto.
    + eexists true, _, _. split; [reflexivity|]. split; [simpl; lia | discriminate].
  - destruct (install_failure_false install_type e) as [m Hm]. exists false, m, w1.
    rewrite Hm. split; [reflexivity|]. split; [simpl; lia|]. intros _. do 3 right. eauto.
  - unfold winreg.OpenKey in Hopen. destruct (faults w1 _); [discriminate|].
    destruct (registry w1 !! _); discriminate.
Qed.

(** The installer never raises: it answers with a pair, attempts one
    broadcast when it reports success and none otherwise, and every failure
    message is one of the three validation messages or the message of the
    [except] clauses. *)
Theorem install_outcome (self : FontManager) (font_path install_type : string) (w : World) :
  exists ok msg w',
    install_font self font_path install_type w = (Ok (ok, msg), w') /\
    notify_calls w' = notify_calls w + (if ok then 1 else 0) /\
    (ok = false ->
     msg = MSG_FILE_NOT_FOUND \/ msg = MSG_UNSUPPORTED_FORMAT \/
     msg = MSG_ALREADY_INSTALLED install_type \/
     exists e, install_failure install_type e = (false, msg)).
Proof. apply install_font_outcome. Qed.

(** ** The uninstaller: outcomes *)

Lemma uninstall_font_outcome (self : FontManager)
  (font_name font_file font_type : string) (w : World) :
  exists ok msg w',
    uninstall_font self font_name font_file font_type w = (Ok (ok, msg), w') /\
    notify_calls w' = notify_calls w + (if ok then 1 else 0) /\
    (ok = false -> exists e, uninstall_failure font_type e = (false, msg)).
Proof.
  rewrite uninstall_font_eq. cbn zeta.
  destruct (winreg.OpenKey w _ _ _) as [k|e|] eqn:Hopen.
  - unfold winreg.DeleteValue. destruct (faults w (SysDeleteValue _ _)) as [e|].
    { destruct (uninstall_failure_false font_type e) as [m Hm]. exists false, m, w.
      rewrite Hm. split; [reflexivity|]. split; [lia | eauto]. }
    destruct (winreg.has_value _ _).
    2:{ match goal with |- context [uninstall_failure _ ?e] =>
          destruct (uninstall_failure_false font_type e) as [m Hm]; exists false, m, w;
          rewrite Hm; split; [reflexivity|]; split; [lia | eauto] end. }
    match goal with |- context [os.path_exists ?x _] => set (w1 := x) end.
    destruct (os.path_exists w1 _).
    + unfold os.remove. destruct (faults w1 (SysRemove _)) as [e|].
      { destruct (uninstall_failure_false font_type e) as [m Hm]. exists false, m, w1.
        rewrite Hm. split; [reflexivity|]. split; [simpl; lia | eauto]. }
      destruct (fs w1 !! _).
      * eexists true, _, _. split; [reflexivity|]. split; [simpl; lia | discriminate].
      * match goal with |- context [uninstall_failure _ ?e] =>
          destruct (uninstall_failure_false font_type e) as [m Hm]; exists false, m, w1;
          rewrite Hm; split; [reflexivity|]; split; [simpl; lia | eauto] end.
    + eexists true, _, _. split; [reflexivity|]. split; [simpl; lia | discriminate].
  - destruct (uninstall_failure_false font_type e) as [m Hm]. exists false, m, w.
    rewrite Hm. split; [reflexivity|]. split; [lia | eauto].
  - unfold winreg.OpenKey in Hopen. destruct (faults w _); [discriminate|].
    destruct (registry w !! _); discriminate.
Qed.

(** The uninstaller never raises: it answers with a pair, attempts one
    broadcast when it reports success and none otherwise, and every failure
    message is one of those of its [except] clauses. *)
Theorem uninstall_outcome (self : FontManager) (font_name font_file font_type : string)
  (w : World) :
  exists ok msg w',
    uninstall_font self font_name font_file font_type w = (Ok (ok, msg), w') /\
    notify_calls w' = notify_calls w + (if ok then 1 else 0) /\
    (ok = false -> exists e, uninstall_failure font_type e = (false, msg)).
Proof. apply uninstall_font_outcome. Qed.

(** Uninstalling a name that the key does not hold reports that the
    registry entry does not exist and changes nothing: the file, if there is
    one, stays. *)
Theorem uninstall_missing_value (self : FontManager)
  (font_name font_file font_type : string) (w : World) (k : HKEY) :
  winreg.OpenKey w (uninstall_key font_type).1 (uninstall_key font_type).2 KEY_SET_VALUE
    = Ok k ->
  faults w (SysDeleteValue k font_name) = None ->
  winreg.has_value font_name (winreg.values w k) = false ->
  uninstall_font self font_name font_file font_type w = (Ok (false, "注册表项不存在"), w).
Proof.
  intros Hopen Hdel Hno. rewrite uninstall_font_eq. cbn zeta. rewrite Hopen.
  unfold winreg.DeleteValue. rewrite Hdel, Hno. reflexivity.
Qed.

(** A successful uninstall removes the values of that name from the
    scope's key, keeping the others in order, removes the file at the
    resolved path if there is one, and touches no other key and no other
    file. *)
Theorem uninstall_success_effects (self : FontManager)
  (font_name font_file font_type : string) (w : World) (msg : string) (w' : World) :
  uninstall_font self font_name font_file font_type w = (Ok (true, msg), w') ->
  let key := uninstall_key font_type in
  winreg.has_value font_name (winreg.values w key) = true /\
  registry w' = <[key := winreg.delete_value font_name (winreg.values w key)]> (registry w) /\
  fs w' = delete (uninstall_target self font_file font_type) (fs w) /\
  notify_calls w' = S (notify_calls w) /\
  msg = font_type ++ "卸载成功".
Proof.
  rewrite uninstall_font_eq. cbn zeta.
  destruct (winreg.OpenKey w _ _ _) as [k|e|] eqn:Hopen.
  2:{ destruct (uninstall_failure_false font_type e) as [m ->]. intros [=]. }
  2:{ intros [=]. }
  apply OpenKey_Ok in Hopen. destruct Hopen as (Hk & _ & _).
  rewrite <- surjective_pairing in Hk. subst k.
  unfold winreg.DeleteValue. destruct (faults w (SysDeleteValue _ _)) as [e|].
  { destruct (uninstall_failure_false font_type e) as [m ->]. intros [=]. }
  destruct (winreg.has_value _ _) eqn:Hhas.
  2:{ match goal with |- context [uninstall_failure _ ?e] =>
        destruct (uninstall_failure_false font_type e) as [m ->] end. intros [=]. }
  match goal with |- context [os.path_exists ?x _] => set (w1 := x) end.
  destruct (os.path_exists w1 _) eqn:Hex.
  - unfold os.remove. destruct (faults w1 (SysRemove _)) as [e|].
    { destruct (uninstall_failure_false font_type e) as [m ->]. intros [=]. }
    destruct (fs w1 !! _).
    + intros [= <- <-]. repeat split; reflexivity.
    + match goal with |- context [uninstall_failure _ ?e] =>
        destruct (uninstall_failure_false font_type e) as [m ->] end. intros [=].
  - intros [= <- <-]. split; [reflexivity|]. split; [reflexivity|].
    split; [|split; reflexivity].
    cbn [fs set_notify_calls w1 set_registry]. symmetry. apply delete_id.
    unfold os.path_exists in Hex. apply bool_decide_eq_false_1 in Hex.
    destruct (fs w !! _) eqn:Hl; [exfalso; apply Hex; eauto | reflexivity].
Qed.

(** ** Absolute stored paths *)

Lemma splitdrive_drive_letter (a s : ascii) (r : string) :
  ntpath.splitdrive (String a (String Str.colon (String s r)))
  = (String a (String Str.colon EmptyString), String s r).
Proof.
  unfold ntpath.splitdrive.
  change (2 <=? String.length (String a (String Str.colon (String s r))))%nat with true.
  cbn iota. cbn [Str.replace Str.map Str.slice Str.take Str.drop Nat.sub].
  replace (Str.ascii_eqb Str.colon Str.slash) with false by reflexivity.
  unfold Str.eqb.
  rewrite bool_decide_eq_false_2.
  2:{ intros H. injection H as _ H. discriminate H. }
  rewrite bool_decide_eq_true_2 by reflexivity.
  reflexivity.
Qed.

Lemma join_drive_letter (dir : string) (a s : ascii) (r : string) :
  ntpath.is_sep s = true ->
  ntpath.join dir [String a (String Str.colon (String s r))]
  = String a (String Str.colon (String s r)).
Proof.
  intros Hs. unfold ntpath.join. cbn [foldl]. unfold ntpath.join_step.
  destruct (ntpath.splitdrive dir) as [rd rp].
  rewrite splitdrive_drive_letter.
  unfold ntpath.head_is_sep. cbn [Str.head]. rewrite Hs.
  cbn [Str.is_empty negb orb andb]. cbn [Str.head]. rewrite Hs. cbn [negb andb].
  reflexivity.
Qed.

Lemma isabs_drive_letter (a s : ascii) (r : string) :
  ntpath.is_sep s = true ->
  ntpath.isabs (String a (String Str.colon (String s r))) = true.
Proof.
  intros Hs. unfold ntpath.isabs.
  cbn [Str.take Str.replace Str.map Str.drop Str.startswith ntpath.sep].
  replace (Str.ascii_eqb Str.colon Str.slash) with false by reflexivity.
  cbn [Str.startswith].
  replace (Str.ascii_eqb Str.colon Str.colon) with true by reflexivity.
  unfold ntpath.is_sep in Hs.
  destruct (Str.ascii_eqb s Str.slash) eqn:Hslash.
  - replace (Str.ascii_eqb Str.backslash Str.backslash) with true by reflexivity.
    cbn [andb]. apply orb_true_r.
  - rewrite orb_false_r in Hs. apply ascii_eqb_eq in Hs. subst s.
    replace (Str.ascii_eqb Str.backslash Str.backslash) with true by reflexivity.
    cbn [andb]. apply orb_true_r.
Qed.

(** A stored value with a drive letter and a root is used as it is by the
    enumerator and by the uninstaller alike, whatever the scope: the file
    the uninstaller removes is the file the catalog shows. *)
Theorem absolute_value_paths_agree (self : FontManager) (fonts_dir v font_type : string) :
  drive_absolute v = true ->
  resolve fonts_dir v = v /\ uninstall_target self v font_type = v.
Proof.
  intros H. destruct v as [|a [|c [|s r]]]; try discriminate H.
  cbn [drive_absolute] in H. apply andb_true_iff in H. destruct H as [Hc Hs].
  apply ascii_eqb_eq in Hc. subst c. split.
  - unfold resolve. rewrite isabs_drive_letter by exact Hs. reflexivity.
  - unfold uninstall_target. apply join_drive_letter. exact Hs.
Qed.

(** ** The filters of the window *)

Lemma filtered_fonts_update_tree (g : FontManagerGUI) :
  filtered_fonts (_update_tree g) = filtered_fonts g /\
  current_fonts (_update_tree g) = current_fonts g /\
  tree (_update_tree g)
  = (fun f => (name f, file f, path f)) <$> filtered_fonts g.
Proof. repeat split; reflexivity. Qed.

(** What the list shows after the filters are applied: the records of
    the catalog, in the order of the catalog, whose type is that of the
    selected tab and whose lowercased name or file contains the lowercased
    search text, lowercased by [str.lower] whatever that function does
    outside ASCII; the rows of the list view are these records. *)
Theorem apply_filters_shown (g : FontManagerGUI) :
  let shown := filtered_fonts (_apply_filters g) in
  let tab_type := if Str.eqb (current_tab g) "user" then "用户字体" else "系统字体" in
  shown `sublist_of` all_fonts g /\
  tree (_apply_filters g) = (fun f => (name f, file f, path f)) <$> shown /\
  forall f,
    f ∈ shown <->
    f ∈ all_fonts g /\ type f = tab_type /\
    ((exists pre post, Str.lower (name f) = pre ++ Str.lower (search_var g) ++ post) \/
     (exists pre post, Str.lower (file f) = pre ++ Str.lower (search_var g) ++ post)).
Proof.
  cbn zeta. unfold _apply_filters.
  destruct (filtered_fonts_update_tree
    (mk_FontManagerGUI (font_manager g) (all_fonts g)
       (if Str.eqb (current_tab g) "user"
        then filter (fun f => type f = "用户字体") (all_fonts g)
        else filter (fun f => type f = "系统字体") (all_fonts g))
       (if negb (Str.is_empty (Str.lower (search_var g)))
        then filter (fun f => search_matches (Str.lower (search_var g)) f = true)
               (if Str.eqb (current_tab g) "user"
                then filter (fun f => type f = "用户字体") (all_fonts g)
                else filter (fun f => type f = "系统字体") (all_fonts g))
        else if Str.eqb (current_tab g) "user"
             then filter (fun f => type f = "用户字体") (all_fonts g)
             else filter (fun f => type f = "系统字体") (all_fonts g))
       (current_tab g) (search_var g) (status_var g) (tree g)))
    as (-> & _ & ->).
  cbn [filtered_fonts].
  set (tab_type := if Str.eqb (current_tab g) "user" then "用户字体" else "系统字体").
  assert (Hcur : (if Str.eqb (current_tab g) "user"
                  then filter (fun f => type f = "用户字体") (all_fonts g)
                  else filter (fun f => type f = "系统字体") (all_fonts g))
                 = filter (fun f => type f = tab_type) (all_fonts g)).
  { unfold tab_type. destruct (Str.eqb (current_tab g) "user"); reflexivity. }
  rewrite Hcur.
  assert (Hmatch : forall f,
    search_matches (Str.lower (search_var g)) f = true <->
    (exists pre post, Str.lower (name f) = pre ++ Str.lower (search_var g) ++ post) \/
    (exists pre post, Str.lower (file f) = pre ++ Str.lower (search_var g) ++ post)).
  { intros f. unfold search_matches.
    rewrite orb_true_iff, !Str_facts.contains_spec. reflexivity. }
  destruct (Str.lower (search_var g)) as [|c s] eqn:Hsearch; cbn [Str.is_empty negb].
  - split; [apply sublist_filter|]. split; [reflexivity|].
    intros f. rewrite list_elem_of_filter. split.
    + intros [Ht Hin]. split; [exact Hin|]. split; [exact Ht|].
      left. exists EmptyString, (Str.lower (name f)). reflexivity.
    + intros (Hin & Ht & _). split; assumption.
  - split; [etransitivity; apply sublist_filter|]. split; [reflexivity|].
    intros f. rewrite !list_elem_of_filter, Hmatch. tauto.
Qed.

Lemma filter_partition {A} (P Q : A -> Prop)
  `{forall x, Decision (P x)} `{forall x, Decision (Q x)} (l : list A) :
  (forall x, x ∈ l -> (P x /\ ~ Q x) \/ (Q x /\ ~ P x)) ->
  (filter P l ++ filter Q l)%list ≡ₚ l.
Proof.
  induction l as [|x l IH]; intros Hl; [reflexivity|].
  rewrite !filter_cons.
  assert (IH' : (filter P l ++ filter Q l)%list ≡ₚ l).
  { apply IH. intros y Hy. apply Hl. right. exact Hy. }
  destruct (Hl x ltac:(left)) as [[HP HQ] | [HQ HP]].
  - rewrite decide_True by exact HP. rewrite decide_False by exact HQ.
    simpl. rewrite IH'. reflexivity.
  - rewrite decide_False by exact HP. rewrite decide_True by exact HQ.
    rewrite <- Permutation_middle. rewrite IH'. reflexivity.
Qed.

(** The two tabs split the catalog: every record the enumerator returns
    is listed under exactly one of them. *)
Theorem tabs_split_catalog (self : FontManager) (w : World) :
  exists cat,
    get_installed_fonts self w = Ok cat /\
    forall fm cur fil search status rows,
      (current_fonts
         (_apply_filters (mk_FontManagerGUI fm cat cur fil "user" search status rows))
       ++ current_fonts
            (_apply_filters (mk_FontManagerGUI fm cat cur fil "system" search status rows)))%list
      ≡ₚ cat.
Proof.
  exists (sorted name (fonts (final_locals self w))).
  split; [apply get_installed_fonts_final|].
  intros fm cur fil search status rows.
  unfold _apply_filters. cbn [current_tab all_fonts].
  replace (Str.eqb "user" "user") with true by reflexivity.
  replace (Str.eqb "system" "user") with false by reflexivity.
  match goal with |- context [_update_tree ?g1] =>
    destruct (filtered_fonts_update_tree g1) as (_ & -> & _) end.
  match goal with |- context [current_fonts (_update_tree ?g2)] =>
    destruct (filtered_fonts_update_tree g2) as (_ & -> & _) end.
  cbn [current_fonts].
  apply filter_partition. intros r Hr. apply elem_of_sorted in Hr.
  apply final_locals_provenance in Hr.
  destruct Hr as [_ [(nv & _ & ->) | (nv & _ & ->)]];
    cbn [record_of type]; unfold classify;
    destruct (is_system self _); [right | left | right | left];
    (split; [reflexivity | discriminate]).
Qed.

(** ** The family name of the preview *)

Lemma cut_no_suffix (suffixes : list string) (s : string) :
  Forall (fun suffix => Str.contains s suffix = false) suffixes ->
  cut_first_suffix suffixes s = s.
Proof.
  induction 1 as [|suffix rest Hs _ IH]; [reflexivity|].
  cbn [cut_first_suffix]. rewrite Hs. exact IH.
Qed.

(** For a font this tool installed, the preview derives the family name
    from the value name by removing what the installer appended: the file
    name without its extension, stripped of surrounding white space for
    .ttf and .otf and as it is for .ttc, provided that stem contains none of
    the literals the preview looks for. The white space removed is what
    [str.strip] removes, for every such function. *)
Theorem preview_name_of_installed_font (font_path : string) :
  let stem := (ntpath.splitext (ntpath.basename font_path)).1 in
  install_ext font_path ∈ [".ttf"; ".otf"; ".ttc"] ->
  Forall (fun suffix => Str.contains stem suffix = false) TYPE_SUFFIXES ->
  actual_font_name (install_reg_name font_path)
  = if Str.eqb (install_ext font_path) ".ttc" then stem else Str.strip stem.
Proof.
  intros stem Hext Hnone.
  pose proof Hnone as Hall.
  unfold TYPE_SUFFIXES in Hnone.
  apply Forall_cons in Hnone. destruct Hnone as [Httf Hnone].
  apply Forall_cons in Hnone. destruct Hnone as [Hotf _].
  unfold actual_font_name, install_reg_name. cbn zeta. fold stem.
  apply elem_of_cons in Hext. destruct Hext as [-> | Hext].
  { replace (Str.eqb ".ttf" ".ttf") with true by reflexivity.
    replace (Str.eqb ".ttf" ".ttc") with false by reflexivity.
    unfold TYPE_SUFFIXES. cbn [cut_first_suffix].
    rewrite Str_facts.contains_app_r.
    rewrite (Str_facts.split_head_app_fresh " " "(TrueType)" stem eq_refl Httf).
    reflexivity. }
  apply elem_of_cons in Hext. destruct Hext as [-> | Hext].
  { replace (Str.eqb ".otf" ".ttf") with false by reflexivity.
    replace (Str.eqb ".otf" ".otf") with true by reflexivity.
    replace (Str.eqb ".otf" ".ttc") with false by reflexivity.
    unfold TYPE_SUFFIXES. cbn [cut_first_suffix].
    rewrite (Str_facts.contains_app_fresh " " "(TrueType)" "(OpenType)" stem eq_refl Httf).
    replace (Str.contains " (OpenType)" " (TrueType)") with false by reflexivity.
    rewrite Str_facts.contains_app_r.
    rewrite (Str_facts.split_head_app_fresh " " "(OpenType)" stem eq_refl Hotf).
    reflexivity. }
  apply list_elem_of_singleton in Hext. rewrite Hext.
  replace (Str.eqb ".ttc" ".ttf") with false by reflexivity.
  replace (Str.eqb ".ttc" ".otf") with false by reflexivity.
  replace (Str.eqb ".ttc" ".ttc") with true by reflexivity.
  apply cut_no_suffix. exact Hall.
Qed.

(** ** The batches of the window *)

Section BatchFacts.

Variable g : FontManagerGUI.

Lemma install_files_tally install_type file_paths :
  forall t w, exists t' w',
    install_files g install_type file_paths t w = (Ok t', w') /\
    success_count t' + fail_count t'
      = success_count t + fail_count t + length file_paths /\
    length (errors t') + fail_count t = length (errors t) + fail_count t' /\
    notify_calls w' + success_count t = notify_calls w + success_count t'.
Proof.
  induction file_paths as [|font_path rest IH]; intros t w.
  - exists t, w. simpl. repeat split; lia.
  - cbn [install_files]. unfold bind at 1.
    destruct (install_font_outcome (font_manager g) font_path install_type w)
      as (ok & msg & w1 & -> & Hn & _).
    destruct ok.
    + destruct (IH (mk_Tally (success_count t + 1) (fail_count t) (errors t)) w1)
        as (t' & w' & -> & H1 & H2 & H3).
      exists t', w'. cbn [success_count fail_count errors] in *.
      split; [reflexivity|]. simpl. repeat split; lia.
    + destruct (IH (mk_Tally (success_count t) (fail_count t + 1)
                      (errors t ++ [ntpath.basename font_path ++ ": " ++ msg])) w1)
        as (t' & w' & -> & H1 & H2 & H3).
      exists t', w'. cbn [success_count fail_count errors] in *.
      rewrite length_app in H2. simpl in *.
      split; [reflexivity|]. repeat split; lia.
Qed.

Lemma uninstall_fonts_tally font_type fonts_to_uninstall :
  forall t w, exists t' w',
    uninstall_fonts g font_type fonts_to_uninstall t w = (Ok t', w') /\
    success_count t' + fail_count t'
      = success_count t + fail_count t + length fonts_to_uninstall /\
    length (errors t') + fail_count t = length (errors t) + fail_count t' /\
    notify_calls w' + success_count t = notify_calls w + success_count t'.
Proof.
  induction fonts_to_uninstall as [|[[font_name font_file] font_path] rest IH]; intros t w.
  - exists t, w. simpl. repeat split; lia.
  - cbn [uninstall_fonts]. unfold bind at 1.
    destruct (uninstall_font_outcome (font_manager g) font_name font_file font_type w)
      as (ok & msg & w1 & -> & Hn & _).
    destruct ok.
    + destruct (IH (mk_Tally (success_count t + 1) (fail_count t) (errors t)) w1)
        as (t' & w' & -> & H1 & H2 & H3).
      exists t', w'. cbn [success_count fail_count errors] in *.
      split; [reflexivity|]. simpl. repeat split; lia.
    + destruct (IH (mk_Tally (success_count t) (fail_count t + 1)
                      (errors t ++ [font_name ++ ": " ++ msg])) w1)
        as (t' & w' & -> & H1 & H2 & H3).
      exists t', w'. cbn [success_count fail_count errors] in *.
      rewrite length_app in H2. simpl in *.
      split; [reflexivity|]. repeat split; lia.
Qed.

End BatchFacts.

(** A batch install goes through every file, whatever happens to the
    others: it never raises, each file counts as one success or one failure,
    every failure leaves one error line, and one broadcast is attempted per
    installed font. *)
Theorem install_batch_tally (g : FontManagerGUI) (install_type : string)
  (file_paths : list string) (w : World) :
  exists t w',
    install_files g install_type file_paths (mk_Tally 0 0 []) w = (Ok t, w') /\
    success_count t + fail_count t = length file_paths /\
    length (errors t) = fail_count t /\
    notify_calls w' = notify_calls w + success_count t.
Proof.
  destruct (install_files_tally g install_type file_paths (mk_Tally 0 0 []) w)
    as (t & w' & Hrun & H1 & H2 & H3).
  exists t, w'. cbn [success_count fail_count errors length] in *.
  split; [exact Hrun|]. repeat split; lia.
Qed.

(** A batch uninstall goes through every selected font in the same way:
    it never raises, the successes and failures add up to the selection,
    every failure leaves one error line, and one broadcast is attempted per
    uninstalled font. *)
Theorem uninstall_batch_tally (g : FontManagerGUI) (font_type : string)
  (fonts_to_uninstall : list (string * string * string)) (w : World) :
  exists t w',
    uninstall_fonts g font_type fonts_to_uninstall (mk_Tally 0 0 []) w = (Ok t, w') /\
    success_count t + fail_count t = length fonts_to_uninstall /\
    length (errors t) = fail_count t /\
    notify_calls w' = notify_calls w + success_count t.
Proof.
  destruct (uninstall_fonts_tally g font_type fonts_to_uninstall (mk_Tally 0 0 []) w)
    as (t & w' & Hrun & H1 & H2 & H3).
  exists t, w'. cbn [success_count fail_count errors length] in *.
  split; [exact Hrun|]. repeat split; lia.
Qed.

(** A file that fails a validation is counted as a failure with its error
    line, and the batch goes on with the remaining files on the unchanged
    machine. *)
Theorem install_batch_skips_invalid_file (g : FontManagerGUI) (install_type : string)
  (font_path : string) (rest : list string) (t : Tally) (w : World) :
  os.path_exists w font_path = false \/
  install_ext font_path ∉ [".ttf"; ".otf"; ".ttc"] \/
  os.path_exists w (install_target (font_manager g) font_path install_type) = true ->
  exists msg,
    install_files g install_type (font_path :: rest) t w
    = install_files g install_type rest
        (mk_Tally (success_count t) (fail_count t + 1)
           (errors t ++ [ntpath.basename font_path ++ ": " ++ msg])) w.
Proof.
  intros H. cbn [install_files]. unfold bind at 1.
  destruct (os.path_exists w font_path) eqn:Hsrc.
  - destruct (decide (install_ext font_path ∈ [".ttf"; ".otf"; ".ttc"])) as [Hext|Hext].
    + destruct H as [H | [H | H]]; [discriminate | contradiction |].
      rewrite install_font_target_present by assumption. eexists. reflexivity.
    + rewrite install_font_bad_extension by assumption. eexists. reflexivity.
  - rewrite install_font_missing_source by exact Hsrc. eexists. reflexivity.
Qed.

Section BatchKeys.

Variable g : FontManagerGUI.

Lemma uninstall_font_other_keys (self : FontManager)
  (font_name font_file font_type : string) (w : World) (k' : HKEY) :
  k' <> uninstall_key font_type ->
  registry (uninstall_font self font_name font_file font_type w).2 !! k'
  = registry w !! k'.
Proof.
  intros Hk. rewrite uninstall_font_eq. cbn zeta.
  destruct (winreg.OpenKey w _ _ _) as [k|e|] eqn:Hopen; [|reflexivity|reflexivity].
  apply OpenKey_Ok in Hopen. destruct Hopen as (Hkey & _ & _).
  rewrite <- surjective_pairing in Hkey. subst k.
  unfold winreg.DeleteValue. destruct (faults w (SysDeleteValue _ _)); [reflexivity|].
  destruct (winreg.has_value _ _); [|reflexivity].
  match goal with |- context [os.path_exists ?x _] => set (w1 := x) end.
  assert (H1 : registry w1 !! k' = registry w !! k').
  { cbn [registry w1 set_registry]. apply lookup_insert_ne. congruence. }
  destruct (os.path_exists w1 _); [|exact H1].
  unfold os.remove. destruct (faults w1 (SysRemove _)); [exact H1|].
  destruct (fs w1 !! _); exact H1.
Qed.

Lemma uninstall_fonts_other_keys font_type fonts_to_uninstall (k' : HKEY) :
  k' <> uninstall_key font_type ->
  forall t w,
    registry (uninstall_fonts g font_type fonts_to_uninstall t w).2 !! k'
    = registry w !! k'.
Proof.
  intros Hk.
  induction fonts_to_uninstall as [|[[font_name font_file] font_path] rest IH]; intros t w.
  - reflexivity.
  - cbn [uninstall_fonts]. unfold bind at 1.
    pose proof (uninstall_font_other_keys (font_manager g) font_name font_file font_type
                  w k' Hk) as H1.
    destruct (uninstall_font (font_manager g) font_name font_file font_type w)
      as [[[ok msg]|e|] w1]; cbn [snd] in H1 |- *; try exact H1.
    destruct ok; rewrite IH; exact H1.
Qed.

End BatchKeys.

(** The window uninstalls nothing and refreshes nothing when nothing is
    selected, when the system tab is shown, or when the user declines the
    confirmation. *)
Theorem uninstall_window_guarded (g : FontManagerGUI)
  (selection : list (string * string * string)) (confirmed : bool) (w : World) :
  selection = [] \/ current_tab g = "system" \/ confirmed = false ->
  exists events,
    _uninstall_font g selection confirmed w = (Ok events, w) /\ LoadFonts ∉ events.
Proof.
  intros H. unfold _uninstall_font.
  destruct selection as [|row rest].
  { eexists. split; [reflexivity|]. intros Hin.
    apply list_elem_of_singleton in Hin. discriminate Hin. }
  destruct (Str.eqb (current_tab g) "system") eqn:Htab.
  { replace (Str.eqb "系统字体" "系统字体") with true by reflexivity.
    eexists. split; [reflexivity|]. intros Hin.
    apply list_elem_of_singleton in Hin. discriminate Hin. }
  replace (Str.eqb "用户字体" "系统字体") with false by reflexivity.
  destruct H as [H | [H | H]].
  - discriminate H.
  - rewrite H in Htab. discriminate Htab.
  - rewrite H. cbn [negb]. eexists. split; [reflexivity|]. intros Hin.
    apply list_elem_of_singleton in Hin. discriminate Hin.
Qed.

(** Whatever is selected and whatever tab is shown, uninstalling from the
    window leaves the values of the machine hive as they are. *)
Theorem uninstall_window_keeps_machine_hive (g : FontManagerGUI)
  (selection : list (string * string * string)) (confirmed : bool) (w : World) :
  registry (_uninstall_font g selection confirmed w).2 !! machine_key
  = registry w !! machine_key.
Proof.
  unfold _uninstall_font.
  destruct selection as [|row rest]; [reflexivity|].
  destruct (Str.eqb (current_tab g) "system").
  { replace (Str.eqb "系统字体" "系统字体") with true by reflexivity. reflexivity. }
  replace (Str.eqb "用户字体" "系统字体") with false by reflexivity.
  destruct confirmed; [|reflexivity]. cbn [negb]. unfold bind.
  pose proof (uninstall_fonts_other_keys g "用户字体" (row :: rest) machine_key
                ltac:(discriminate) (mk_Tally 0 0 []) w) as H.
  destruct (uninstall_fonts g "用户字体" (row :: rest) (mk_Tally 0 0 []) w)
    as [[t|e|] w']; exact H.
Qed.

(** Installing from the window. When the scope dialog is cancelled or no
    file is chosen, nothing is shown and the machine is left as it was.
    Otherwise the window never raises, the list is reloaded, and exactly one
    completion box follows: the information box when at least one font was
    installed, with at least one broadcast attempted, and the error box
    when none was, with no broadcast. *)
Theorem install_window_reports (g : FontManagerGUI) (install_type : option string)
  (file_paths : list string) (w : World) :
  (install_type = None \/ file_paths = [] ->
   _install_font g install_type file_paths w = (Ok [], w)) /\
  (forall ty, install_type = Some ty -> file_paths <> [] ->
   exists t w',
     install_files g ty file_paths (mk_Tally 0 0 []) w = (Ok t, w') /\
     ((0 < success_count t /\
       _install_font g install_type file_paths w
       = (Ok [LoadFonts; ShowInfo "安装完成" (result_msg "成功安装" t)], w') /\
       notify_calls w < notify_calls w') \/
      (success_count t = 0 /\
       _install_font g install_type file_paths w
       = (Ok [LoadFonts; ShowError "安装失败" (result_msg "成功安装" t)], w') /\
       notify_calls w' = notify_calls w))).
Proof.
  split.
  - intros [-> | ->]; [reflexivity|]. destruct install_type; reflexivity.
  - intros ty -> Hne. unfold _install_font.
    destruct file_paths as [|p rest]; [contradiction|].
    unfold bind.
    destruct (install_files_tally g ty (p :: rest) (mk_Tally 0 0 []) w)
      as (t & w' & Hrun & _ & _ & Hn).
    cbn [success_count] in Hn. rewrite Hrun. unfold ret.
    exists t, w'. split; [reflexivity|].
    destruct (0 <? success_count t)%nat eqn:Hs.
    + apply Nat.ltb_lt in Hs. left. split; [exact Hs|]. split; [reflexivity | lia].
    + apply Nat.ltb_ge in Hs. right. split; [lia|]. split; [reflexivity | lia].
Qed.

End Properties.

(** * Evaluations on concrete machines *)

(** The paths and names of the machines of [Demo] are ASCII strings, on
    which the two Unicode functions are the ASCII ones. *)
#[local] Existing Instance Str.ascii_only.

Example fm_dirs :
  system_fonts_dir Demo.fm = "C:\Windows\Fonts" /\ user_fonts_dir Demo.fm = Demo.user_dir.
Proof. split; reflexivity. Qed.

Lemma install_validation_order_witness :
  (install_font Demo.fm "C:\dl\missing.ttf" "user" Demo.clean).1
    = Ok (false, MSG_FILE_NOT_FOUND) /\
  (install_font Demo.fm "C:\dl\notes.txt" "user" Demo.clean).1
    = Ok (false, MSG_UNSUPPORTED_FORMAT) /\
  (install_font Demo.fm "C:\Windows\Fonts\arial.ttf" "system" Demo.clean).1
    = Ok (false, MSG_ALREADY_INSTALLED "system").
Proof.
  split; [|split].
  - apply (proj1 (install_validation_order Demo.fm "C:\dl\missing.ttf" "user" Demo.clean)).
    vm_compute. reflexivity.
  - apply (proj1 (proj2 (install_validation_order Demo.fm "C:\dl\notes.txt" "user" Demo.clean))).
    + vm_compute. reflexivity.
    + apply ext_not_allowed. vm_compute. reflexivity.
  - apply (proj2 (proj2 (install_validation_order Demo.fm "C:\Windows\Fonts\arial.ttf"
                           "system" Demo.clean))).
    + vm_compute. reflexivity.
    + apply ext_allowed. vm_compute. reflexivity.
    + vm_compute. reflexivity.
Defined.

Lemma install_validation_failure_no_mutation_witness :
  (exists msg,
     install_font Demo.fm "C:\Windows\Fonts\arial.ttf" "system" Demo.clean
     = (Ok (false, msg), Demo.clean)) /\
  fs (install_font Demo.fm "C:\Windows\Fonts\arial.ttf" "system" Demo.clean).2
    !! "C:\Windows\Fonts\arial.ttf" = Some "arial".
Proof.
  split.
  - apply (proj1 (install_validation_failure_no_mutation Demo.fm
                    "C:\Windows\Fonts\arial.ttf" "system" Demo.clean)).
    right. right. vm_compute. reflexivity.
  - apply (proj2 (install_validation_failure_no_mutation Demo.fm
                    "C:\Windows\Fonts\arial.ttf" "system" Demo.clean) "arial").
    vm_compute. reflexivity.
Defined.

Lemma install_display_name_witness :
  exists annotation,
    (".ttf", annotation)
      ∈ [(".ttf", " (TrueType)"); (".otf", " (OpenType)"); (".ttc", "")] /\
    ("X" ++ annotation, "X.ttf")
      ∈ winreg.values (install_font Demo.fm "C:\dl\X.ttf" "user" Demo.clean).2 user_key.
Proof.
  destruct (install_display_name Demo.fm "C:\dl\X.ttf" "user" Demo.clean
              "字体已成功安装为用户字体"
              (install_font Demo.fm "C:\dl\X.ttf" "user" Demo.clean).2)
    as (annotation & Hin & _ & Hval).
  - vm_compute. reflexivity.
  - exists annotation. split; [exact Hin | exact Hval].
Defined.

(** C1 as stated does not hold: installing a .ttc file succeeds and writes
    a value whose name is the bare file name without extension; no
    annotation follows it. *)
Lemma install_ttc_has_no_annotation :
  let run := install_font Demo.fm "C:\dl\a.ttc" "user" Demo.clean in
  run.1 = Ok (true, "字体已成功安装为用户字体") /\
  winreg.values run.2 user_key = [("a", "a.ttc")] /\
  (ntpath.splitext (ntpath.basename "C:\dl\a.ttc")).1 = "a" /\
  ~ (exists annotation,
       annotation <> "" /\
       "a" = (ntpath.splitext (ntpath.basename "C:\dl\a.ttc")).1 ++ annotation).
Proof.
  cbn zeta. split; [vm_compute; reflexivity|].
  split; [vm_compute; reflexivity|].
  split; [vm_compute; reflexivity|].
  intros (annotation & Hne & Heq). apply Hne.
  change ((ntpath.splitext (ntpath.basename "C:\dl\a.ttc")).1) with "a" in Heq.
  destruct annotation; [reflexivity | discriminate Heq].
Qed.

Lemma scope_argument_not_validated_witness :
  install_key "SYSTEM" = (HKEY_CURRENT_USER, USER_FONTS_REG_PATH) /\
  uninstall_key "machine" = (HKEY_CURRENT_USER, USER_FONTS_REG_PATH) /\
  (exists w',
     install_font Demo.fm "C:\Windows\Fonts\arial.ttf" "SYSTEM" Demo.machine_denied
     = (Ok (true, "字体已成功安装为用户字体"), w') /\
     fs w' = <[Demo.user_dir ++ "\arial.ttf" := "arial"]> (fs Demo.machine_denied)) /\
  (exists w',
     uninstall_font Demo.fm "Mine (TrueType)" "mine.ttf" "machine" Demo.machine_denied
     = (Ok (true, "machine卸载成功"), w') /\
     registry w' = <[user_key := []]> (registry Demo.machine_denied) /\
     fs w' = delete (Demo.user_dir ++ "\mine.ttf") (fs Demo.machine_denied)).
Proof.
  assert (Hi : "SYSTEM" <> "system") by discriminate.
  assert (Hu : "machine" <> "系统字体") by discriminate.
  destruct (scope_argument_not_validated Demo.fm Demo.machine_denied "SYSTEM" "machine" Hi Hu)
    as ((_ & Hkey & _ & Hukey) & _ & Hinstall & _ & Huninstall).
  split; [exact Hkey|]. split; [exact Hukey|]. split.
  - destruct (Hinstall "C:\Windows\Fonts\arial.ttf" "arial") as (w' & Hrun & Hfs & _).
    + vm_compute. reflexivity.
    + apply ext_allowed. vm_compute. reflexivity.
    + vm_compute. reflexivity.
    + eexists. vm_compute. reflexivity.
    + reflexivity.
    + reflexivity.
    + reflexivity.
    + exists w'. split; [exact Hrun | exact Hfs].
  - destruct (Huninstall "Mine (TrueType)" "mine.ttf") as (w' & Hrun & Hreg & Hfs).
    + vm_compute. reflexivity.
    + eexists. vm_compute. reflexivity.
    + reflexivity.
    + reflexivity.
    + reflexivity.
    + exists w'. split; [exact Hrun|]. split; [exact Hreg | exact Hfs].
Defined.

Lemma user_install_round_trip_witness :
  exists cat1 r,
    get_installed_fonts Demo.fm (install_font Demo.fm "C:\dl\X.ttf" "user" Demo.clean).2
      = Ok cat1 /\
    r ∈ cat1 /\
    name r = "X (TrueType)" /\ file r = "X.ttf" /\ type r = USER_FONT /\
    exists msg2 w2,
      uninstall_font Demo.fm (name r) (file r) (type r)
        (install_font Demo.fm "C:\dl\X.ttf" "user" Demo.clean).2 = (Ok (true, msg2), w2) /\
      os.path_exists w2 (Demo.user_dir ++ "\X.ttf") = false /\
      exists cat2, get_installed_fonts Demo.fm w2 = Ok cat2 /\ r ∉ cat2.
Proof.
  destruct (user_install_round_trip Demo.fm "C:\dl\X.ttf" Demo.clean
              (install_font Demo.fm "C:\dl\X.ttf" "user" Demo.clean).2
              "字体已成功安装为用户字体")
    as (cat1 & r & Hget & Hin & Hn & Hf & Hp & Ht & msg2 & w2 & Hun & Hgone & Hcat2).
  - vm_compute. reflexivity.
  - vm_compute. reflexivity.
  - repeat split; try intros i; vm_compute; reflexivity.
  - vm_compute. reflexivity.
  - intros v Hv.
    change (winreg.values Demo.clean machine_key) with [("Arial (TrueType)", "arial.ttf")] in Hv.
    apply list_elem_of_singleton in Hv. discriminate Hv.
  - exists cat1, r. repeat split; try assumption.
    exists msg2, w2. repeat split; assumption.
Defined.

(** C2 as stated does not hold: with a stale value of the same name in
    the machine hive, the user install of X.ttf succeeds and the catalog has
    a single record for the font, whose file is the absolute path stored in
    the machine hive; no record has file "X.ttf". *)
Lemma round_trip_shadowed_by_machine_hive :
  let run := install_font Demo.fm "C:\dl\X.ttf" "user" Demo.shadowing in
  run.1 = Ok (true, "字体已成功安装为用户字体") /\
  get_installed_fonts Demo.fm run.2 =
    Ok [ {| name := "Arial (TrueType)"; file := "arial.ttf";
            path := "C:\Windows\Fonts\arial.ttf"; type := SYSTEM_FONT |};
         {| name := "X (TrueType)"; file := Demo.user_dir ++ "\X.ttf";
            path := Demo.user_dir ++ "\X.ttf"; type := USER_FONT |} ] /\
  ~ (exists cat r,
       get_installed_fonts Demo.fm run.2 = Ok cat /\ r ∈ cat /\ file r = "X.ttf").
Proof.
  cbn zeta.
  assert (Hcat : get_installed_fonts Demo.fm
                   (install_font Demo.fm "C:\dl\X.ttf" "user" Demo.shadowing).2 =
    Ok [ {| name := "Arial (TrueType)"; file := "arial.ttf";
            path := "C:\Windows\Fonts\arial.ttf"; type := SYSTEM_FONT |};
         {| name := "X (TrueType)"; file := Demo.user_dir ++ "\X.ttf";
            path := Demo.user_dir ++ "\X.ttf"; type := USER_FONT |} ])
    by (vm_compute; reflexivity).
  split; [vm_compute; reflexivity|]. split; [exact Hcat|].
  intros (cat & r & Hget & Hin & Hfile). rewrite Hcat in Hget. injection Hget as <-.
  apply elem_of_cons in Hin. destruct Hin as [-> | Hin]; [discriminate Hfile|].
  apply list_elem_of_singleton in Hin. subst r. vm_compute in Hfile. discriminate Hfile.
Qed.

(** The other two conditions of the round trip are needed as well: a file
    that cannot be removed makes the uninstall fail after the registry value
    is gone, and a user directory below the system directory makes the
    record a system font. *)
Example round_trip_needs_removable_file :
  let run := install_font Demo.fm "C:\dl\X.ttf" "user" Demo.locked_target in
  run.1 = Ok (true, "字体已成功安装为用户字体") /\
  let undo := uninstall_font Demo.fm "X (TrueType)" "X.ttf" USER_FONT run.2 in
  undo.1 = Ok (false, "权限不足") /\
  winreg.values undo.2 user_key = [] /\
  os.path_exists undo.2 (Demo.user_dir ++ "\X.ttf") = true.
Proof. cbn zeta. repeat split; vm_compute; reflexivity. Qed.

Example round_trip_needs_user_dir_outside_system_dir :
  let run := install_font Demo.nested "C:\dl\X.ttf" "user" Demo.clean in
  run.1 = Ok (true, "字体已成功安装为用户字体") /\
  get_installed_fonts Demo.nested run.2 =
    Ok [ {| name := "X (TrueType)"; file := "X.ttf";
            path := "C:\W\Fonts\u\Microsoft\Windows\Fonts\X.ttf"; type := SYSTEM_FONT |} ].
Proof. cbn zeta. split; vm_compute; reflexivity. Qed.

Lemma catalog_keys_unique_witness :
  exists cat,
    get_installed_fonts Demo.fm Demo.both_hives = Ok cat /\
    NoDup (key_of <$> cat) /\
    length (filter
              (fun r => key_of r
                        = ("Arial (TrueType)",
                           Str.lower (resolve (system_fonts_dir Demo.fm) "arial.ttf")))
              cat) = 1.
Proof.
  destruct (catalog_keys_unique Demo.fm Demo.both_hives) as (cat & Hget & Hnd & Hone).
  exists cat. split; [exact Hget|]. split; [exact Hnd|].
  apply (Hone 0 0 "Arial (TrueType)" "arial.ttf" "C:\Windows\Fonts\arial.ttf").
  - exists machine_key. split; [vm_compute; reflexivity|].
    split; [intros j Hj; lia | vm_compute; reflexivity].
  - exists user_key. split; [vm_compute; reflexivity|].
    split; [intros j Hj; lia | vm_compute; reflexivity].
  - vm_compute. reflexivity.
  - vm_compute. reflexivity.
  - vm_compute. reflexivity.
Defined.

Lemma scope_follows_path_witness :
  exists cat,
    get_installed_fonts Demo.fm Demo.crossed = Ok cat /\
    (exists r, r ∈ cat /\ name r = "Arial (TrueType)" /\ type r = SYSTEM_FONT) /\
    (exists r, r ∈ cat /\ name r = "Mine (TrueType)" /\ type r = USER_FONT).
Proof.
  destruct (scope_follows_path Demo.fm Demo.crossed) as (cat & Hget & Hall).
  assert (Hcat : get_installed_fonts Demo.fm Demo.crossed =
    Ok [ {| name := "Arial (TrueType)"; file := "C:\Windows\Fonts\arial.ttf";
            path := "C:\Windows\Fonts\arial.ttf"; type := SYSTEM_FONT |};
         {| name := "Mine (TrueType)"; file := Demo.user_dir ++ "\mine.ttf";
            path := Demo.user_dir ++ "\mine.ttf"; type := USER_FONT |} ])
    by (vm_compute; reflexivity).
  rewrite Hget in Hcat. injection Hcat as ->.
  eexists. split; [exact Hget|]. split.
  - eexists. split; [left|]. split; [reflexivity|].
    apply (Hall _ ltac:(left)). vm_compute. reflexivity.
  - eexists. split; [right; left|]. split; [reflexivity|].
    apply (Hall _ ltac:(right; left)). vm_compute. reflexivity.
Defined.

Lemma enumerator_never_fails_witness :
  exists cat,
    get_installed_fonts Demo.fm Demo.machine_denied = Ok cat /\
    exists r, r ∈ cat /\
      key_of r = ("Mine (TrueType)",
                  Str.lower (resolve (user_fonts_dir Demo.fm) "mine.ttf")).
Proof.
  destruct (enumerator_never_fails Demo.fm Demo.machine_denied) as (cat & Hget & _ & Huser).
  exists cat. split; [exact Hget|].
  apply (Huser 0 ("Mine (TrueType)", "mine.ttf")).
  - exists user_key. split; [vm_compute; reflexivity|].
    split; [intros j Hj; lia | vm_compute; reflexivity].
  - vm_compute. reflexivity.
Defined.

Lemma uninstall_missing_file_succeeds_witness :
  exists w',
    uninstall_font Demo.fm "Gone (TrueType)" "gone.ttf" USER_FONT Demo.stale_user
      = (Ok (true, USER_FONT ++ "卸载成功"), w') /\
    winreg.has_value "Gone (TrueType)" (winreg.values w' user_key) = false /\
    fs w' = fs Demo.stale_user.
Proof.
  apply (uninstall_missing_file_succeeds Demo.fm "Gone (TrueType)" "gone.ttf" USER_FONT
           Demo.stale_user
           (winreg.DeleteValue user_key "Gone (TrueType)" Demo.stale_user).2
           user_key).
  - vm_compute. reflexivity.
  - vm_compute. reflexivity.
  - vm_compute. reflexivity.
Defined.

Lemma uninstall_not_atomic_witness :
  let w1 := (winreg.DeleteValue user_key "Mine (TrueType)" Demo.locked_file).2 in
  exists msg,
    uninstall_font Demo.fm "Mine (TrueType)" "mine.ttf" USER_FONT Demo.locked_file
      = (Ok (false, msg), w1) /\
    winreg.has_value "Mine (TrueType)" (winreg.values w1 user_key) = false /\
    notify_calls w1 = notify_calls Demo.locked_file.
Proof.
  cbn zeta.
  apply (uninstall_not_atomic Demo.fm "Mine (TrueType)" "mine.ttf" USER_FONT
           Demo.locked_file
           (winreg.DeleteValue user_key "Mine (TrueType)" Demo.locked_file).2
           (winreg.DeleteValue user_key "Mine (TrueType)" Demo.locked_file).2
           user_key Demo.access_denied).
  - vm_compute. reflexivity.
  - vm_compute. reflexivity.
  - vm_compute. reflexivity.
  - vm_compute. reflexivity.
Defined.

Lemma machine_hive_wins_witness :
  exists cat,
    get_installed_fonts Demo.fm Demo.both_hives = Ok cat /\
    forall r, r ∈ cat ->
      key_of r = ("Arial (TrueType)",
                  Str.lower (resolve (system_fonts_dir Demo.fm) "arial.ttf")) ->
      exists v', ("Arial (TrueType)", v') ∈ winreg.values Demo.both_hives machine_key /\
                 r = record_of Demo.fm (system_fonts_dir Demo.fm) ("Arial (TrueType)", v').
Proof.
  apply (machine_hive_wins Demo.fm Demo.both_hives 0 "Arial (TrueType)" "arial.ttf").
  - exists machine_key. split; [vm_compute; reflexivity|].
    split; [intros j Hj; lia | vm_compute; reflexivity].
  - vm_compute. reflexivity.
Defined.

Lemma install_success_effects_witness :
  let run := install_font Demo.fm "C:\dl\X.ttf" "user" Demo.clean in
  fs run.2 !! install_target Demo.fm "C:\dl\X.ttf" "user" = fs Demo.clean !! "C:\dl\X.ttf" /\
  notify_calls run.2 = S (notify_calls Demo.clean).
Proof.
  cbn zeta.
  assert (H : install_font Demo.fm "C:\dl\X.ttf" "user" Demo.clean
              = (Ok (true, "字体已成功安装为用户字体"),
                 (install_font Demo.fm "C:\dl\X.ttf" "user" Demo.clean).2))
    by (apply run_eq; vm_compute; reflexivity).
  destruct (install_success_effects Demo.fm "C:\dl\X.ttf" "user" Demo.clean _ _ H)
    as (_ & Hcopy & _ & _ & _ & _ & Hn).
  split; [exact Hcopy | exact Hn].
Defined.

Lemma install_twice_refused_witness :
  let w' := (install_font Demo.fm "C:\dl\X.ttf" "user" Demo.clean).2 in
  install_font Demo.fm "C:\dl\X.ttf" "user" w' = (Ok (false, MSG_ALREADY_INSTALLED "user"), w').
Proof.
  cbn zeta.
  apply (install_twice_refused Demo.fm "C:\dl\X.ttf" "user" Demo.clean
           "字体已成功安装为用户字体").
  apply run_eq. vm_compute. reflexivity.
Defined.

Lemma install_registry_failure_leaves_orphan_witness :
  exists w1,
    install_font Demo.fm "C:\dl\X.ttf" "user" Demo.user_write_denied
    = (Ok (install_failure "user" Demo.access_denied), w1) /\
    fs w1 !! install_target Demo.fm "C:\dl\X.ttf" "user"
    = fs Demo.user_write_denied !! "C:\dl\X.ttf" /\
    registry w1 = registry Demo.user_write_denied /\
    notify_calls w1 = notify_calls Demo.user_write_denied /\
    install_font Demo.fm "C:\dl\X.ttf" "user" w1
    = (Ok (false, MSG_ALREADY_INSTALLED "user"), w1).
Proof.
  apply (install_registry_failure_leaves_orphan Demo.fm "C:\dl\X.ttf" "user"
           Demo.user_write_denied Demo.access_denied).
  - vm_compute. reflexivity.
  - apply ext_allowed. vm_compute. reflexivity.
  - vm_compute. reflexivity.
  - reflexivity.
  - vm_compute. reflexivity.
Defined.

Lemma uninstall_missing_value_witness :
  uninstall_font Demo.fm "Nope (TrueType)" "nope.ttf" USER_FONT Demo.clean
  = (Ok (false, "注册表项不存在"), Demo.clean).
Proof.
  apply (uninstall_missing_value Demo.fm "Nope (TrueType)" "nope.ttf" USER_FONT
           Demo.clean user_key).
  - vm_compute. reflexivity.
  - reflexivity.
  - vm_compute. reflexivity.
Defined.

Lemma uninstall_success_effects_witness :
  let run := uninstall_font Demo.fm "Gone (TrueType)" "gone.ttf" USER_FONT Demo.stale_user in
  registry run.2
  = <[uninstall_key USER_FONT :=
        winreg.delete_value "Gone (TrueType)"
          (winreg.values Demo.stale_user (uninstall_key USER_FONT))]>
      (registry Demo.stale_user) /\
  fs run.2 = delete (uninstall_target Demo.fm "gone.ttf" USER_FONT) (fs Demo.stale_user).
Proof.
  cbn zeta.
  assert (H : uninstall_font Demo.fm "Gone (TrueType)" "gone.ttf" USER_FONT Demo.stale_user
              = (Ok (true, USER_FONT ++ "卸载成功"),
                 (uninstall_font Demo.fm "Gone (TrueType)" "gone.ttf" USER_FONT
                    Demo.stale_user).2))
    by (apply run_eq; vm_compute; reflexivity).
  destruct (uninstall_success_effects Demo.fm _ _ _ _ _ _ H) as (_ & Hreg & Hfs & _).
  split; [exact Hreg | exact Hfs].
Defined.

Lemma absolute_value_paths_agree_witness :
  resolve (user_fonts_dir Demo.fm) "C:\Windows\Fonts\arial.ttf" = "C:\Windows\Fonts\arial.ttf" /\
  uninstall_target Demo.fm "C:\Windows\Fonts\arial.ttf" USER_FONT = "C:\Windows\Fonts\arial.ttf".
Proof.
  apply (absolute_value_paths_agree Demo.fm (user_fonts_dir Demo.fm)
           "C:\Windows\Fonts\arial.ttf" USER_FONT).
  reflexivity.
Defined.

Lemma preview_name_of_installed_font_witness :
  actual_font_name (install_reg_name "C:\dl\X.ttf")
  = if Str.eqb (install_ext "C:\dl\X.ttf") ".ttc"
    then (ntpath.splitext (ntpath.basename "C:\dl\X.ttf")).1
    else Str.strip (ntpath.splitext (ntpath.basename "C:\dl\X.ttf")).1.
Proof.
  apply (preview_name_of_installed_font "C:\dl\X.ttf").
  - apply ext_allowed. vm_compute. reflexivity.
  - repeat (apply Forall_cons_2; [vm_compute; reflexivity|]). apply Forall_nil_2.
Defined.

Lemma install_batch_skips_invalid_file_witness :
  exists msg,
    install_files (Demo.window "user") "user" ["C:\dl\missing.ttf"; "C:\dl\X.ttf"]
      (mk_Tally 0 0 []) Demo.clean
    = install_files (Demo.window "user") "user" ["C:\dl\X.ttf"]
        (mk_Tally 0 1 ([] ++ [ntpath.basename "C:\dl\missing.ttf" ++ ": " ++ msg]))
        Demo.clean.
Proof.
  apply (install_batch_skips_invalid_file (Demo.window "user") "user" "C:\dl\missing.ttf"
           ["C:\dl\X.ttf"] (mk_Tally 0 0 []) Demo.clean).
  left. vm_compute. reflexivity.
Defined.

Lemma uninstall_window_guarded_witness :
  exists events,
    _uninstall_font (Demo.window "system")
      [("Arial (TrueType)", "arial.ttf", "C:\Windows\Fonts\arial.ttf")] true Demo.clean
    = (Ok events, Demo.clean) /\ LoadFonts ∉ events.
Proof.
  apply (uninstall_window_guarded (Demo.window "system")
           [("Arial (TrueType)", "arial.ttf", "C:\Windows\Fonts\arial.ttf")] true Demo.clean).
  right. left. reflexivity.
Defined.

Lemma install_window_reports_witness :
  _install_font (Demo.window "user") None ["C:\dl\X.ttf"] Demo.clean = (Ok [], Demo.clean) /\
  exists t w',
    install_files (Demo.window "user") "user" ["C:\dl\X.ttf"; "C:\dl\notes.txt"]
      (mk_Tally 0 0 []) Demo.clean = (Ok t, w') /\
    ((0 < success_count t /\
      _install_font (Demo.window "user") (Some "user") ["C:\dl\X.ttf"; "C:\dl\notes.txt"]
        Demo.clean
      = (Ok [LoadFonts; ShowInfo "安装完成" (result_msg "成功安装" t)], w') /\
      notify_calls Demo.clean < notify_calls w') \/
     (success_count t = 0 /\
      _install_font (Demo.window "user") (Some "user") ["C:\dl\X.ttf"; "C:\dl\notes.txt"]
        Demo.clean
      = (Ok [LoadFonts; ShowError "安装失败" (result_msg "成功安装" t)], w') /\
      notify_calls w' = notify_calls Demo.clean)).
Proof.
  split.
  - apply (proj1 (install_window_reports (Demo.window "user") None ["C:\dl\X.ttf"]
                    Demo.clean)).
    left. reflexivity.
  - apply (proj2 (install_window_reports (Demo.window "user") (Some "user")
                    ["C:\dl\X.ttf"; "C:\dl\notes.txt"] Demo.clean) "user").
    + reflexivity.
    + discriminate.
Defined.


(** Beyond ASCII the catalog follows the lowercasing: with one that knows
    the umlauts, the two spellings of the path have one key, and the user
    hive's value is not listed. *)
Example dedup_follows_lowercasing :
  get_installed_fonts (unicode := Str.latin1) Demo.fm Demo.umlauts
  = Ok [ {| name := "A (TrueType)"; file := Demo.user_dir ++ "\ä.ttf";
            path := Demo.user_dir ++ "\ä.ttf"; type := USER_FONT |} ].
Proof. vm_compute. reflexivity. Qed.
